(** * CosmosDbStorage: a shallow embedding of
      libraries/botbuilder-azure/src/cosmosDbStorage.ts

    The storage provider keeps bot state in a Cosmos DB container.  The
    TypeScript class is embedded as functions over an explicit machine state:
    the JavaScript objects the code copies and mutates live in heaps, the
    instance fields of the class are a record, the Cosmos DB service is a
    reference model with a log of the requests and a script of faults, and
    [async] code runs in a state-and-exception monad in which a promise that
    nobody awaits leaves its rejection in a list of its own.  The embedding
    follows the current class of the file; the constructor of the previous
    revision of the class is kept in [Module Previous] for comparison.

    The properties come after the definitions; a theorem that settles a
    claim of the specification names it (C1 to C10) in its comment. *)

From Stdlib Require Import ZArith Ascii String List Lia.
From stdpp Require Import base option list strings gmap pretty.

Local Open Scope string_scope.
Local Open Scope Z_scope.

(** ** JavaScript strings and truthiness

    A JavaScript string is a sequence of 16-bit code units.  The strings of
    the embedding are the sequences of code units below 256, one byte for
    each code unit (the Latin-1 range, which holds the settings, keys and
    messages of the class and of its tests): [charAt], [substr], [length],
    [trim] and [JSON.stringify] act on these bytes as JavaScript acts on the
    code units.  A string with a code unit above 255 is outside the type. *)

Module JsString.

(** The byte of the double-quote character. *)
Definition dquote : ascii := ascii_of_nat 34.
Definition backslash : ascii := ascii_of_nat 92.

(** [s.charAt(0)]: the first character, [None] for the empty string (where
    JavaScript gives the empty string, which differs from every
    character). *)
Definition charAt0 (s : string) : option ascii :=
  match s with
  | EmptyString => None
  | String c _ => Some c
  end.

(** [s.substr(1)] *)
Definition substr1 (s : string) : string :=
  match s with
  | EmptyString => EmptyString
  | String _ rest => rest
  end.

(** The code units that [String.prototype.trim] removes (the WhiteSpace and
    LineTerminator productions of ECMAScript), among those below 256: TAB,
    LF, VT, FF, CR, SPACE and NO-BREAK SPACE (U+00A0).  The others that
    [trim] removes (U+1680, U+2000 to U+200A, U+2028, U+2029, U+202F, U+205F,
    U+3000 and U+FEFF) are above 255. *)
Definition isWhiteSpace (c : ascii) : bool :=
  let n := nat_of_ascii c in
  ((9 <=? n)%nat && (n <=? 13)%nat) || (n =? 32)%nat || (n =? 160)%nat.

Fixpoint trimStart (s : string) : string :=
  match s with
  | EmptyString => EmptyString
  | String c rest => if isWhiteSpace c then trimStart rest else s
  end.

Fixpoint trimEnd (s : string) : string :=
  match s with
  | EmptyString => EmptyString
  | String c rest =>
      match trimEnd rest with
      | EmptyString => if isWhiteSpace c then EmptyString else String c EmptyString
      | r => String c r
      end
  end.

Definition trim (s : string) : string := trimEnd (trimStart s).

Definition isEmpty (s : string) : bool :=
  match s with EmptyString => true | _ => false end.

(** Truthiness of a value of type [string | undefined | null]: [None]
    stands for [undefined] or [null]; the empty string is falsy too. *)
Definition truthy (v : option string) : bool :=
  match v with
  | None => false
  | Some s => negb (isEmpty s)
  end.

(** [v || d] on such a value. *)
Definition orElse (v : option string) (d : string) : string :=
  match v with
  | Some s => if isEmpty s then d else s
  | None => d
  end.

(** [!v || v.trim() === ''], the test the constructor applies to each
    required setting. *)
Definition missing (v : option string) : bool :=
  match v with
  | None => true
  | Some s => isEmpty s || isEmpty (trim s)
  end.

Definition hexDigit (n : nat) : ascii :=
  if (n <? 10)%nat then ascii_of_nat (48 + n) else ascii_of_nat (87 + n).

(** One character of a string literal written by [JSON.stringify]. *)
Definition escapeChar (c : ascii) : string :=
  let n := nat_of_ascii c in
  if (n =? 34)%nat then String backslash (String dquote EmptyString)
  else if (n =? 92)%nat then String backslash (String backslash EmptyString)
  else if (n =? 8)%nat then String backslash "b"
  else if (n =? 9)%nat then String backslash "t"
  else if (n =? 10)%nat then String backslash "n"
  else if (n =? 12)%nat then String backslash "f"
  else if (n =? 13)%nat then String backslash "r"
  else if (n <? 32)%nat then
    String backslash
      ("u00" ++ String (hexDigit (n / 16)) (String (hexDigit (n mod 16)) EmptyString))
  else String c EmptyString.

Fixpoint escapeAll (s : string) : string :=
  match s with
  | EmptyString => EmptyString
  | String c rest => escapeChar c ++ escapeAll rest
  end.

(** [JSON.stringify(s)] for a string [s]. *)
Definition stringify (s : string) : string :=
  String dquote (escapeAll s ++ String dquote EmptyString).

(** [s] begins with [p]. *)
Fixpoint startsWith (p s : string) : bool :=
  match p, s with
  | EmptyString, _ => true
  | String a p', String b s' => if Ascii.eqb a b then startsWith p' s' else false
  | String _ _, EmptyString => false
  end.

End JsString.

(** ** Values thrown by the code and by the Cosmos client *)

(** [err.code]: a number for HTTP-like responses, a string for Node errors
    such as ECONNREFUSED. *)
Inductive Code :=
| CNum (n : Z)
| CStr (s : string).

Global Instance Code_eq_dec : EqDecision Code.
Proof. solve_decision. Defined.

(** The payload of an error response of the service ([ErrorBody] in the
    typings of the client).  [err.body] is the JSON text of such a payload and
    the class reads it with [JSON.parse(err.body).message]; the model keeps
    the payload in place of its text, so a body that is not the JSON text of
    a payload lies outside the model. *)
Record ErrorBody := mkErrorBody {
  eb_code : string;
  eb_message : string
}.

(** What a rejected promise or a [throw] carries.  [JsError] is an instance of
    [Error]; [ErrorResponse] is the plain object the Cosmos client rejects with
    (its remaining properties, such as the headers, are not modelled).  The
    [original] property of an error is [Self] when it points back to the error
    that holds it. *)
Inductive Thrown :=
| JsError (message : string) (code : option Code) (original : Cause)
| ErrorResponse (code : option Code) (body : option ErrorBody)
with Cause :=
| NoCause
| Self
| Chained (t : Thrown).

Definition thrownCode (t : Thrown) : option Code :=
  match t with
  | JsError _ c _ => c
  | ErrorResponse c _ => c
  end.

(** [err.code === n] for a number [n]. *)
Definition codeIs (t : Thrown) (n : Z) : bool :=
  match thrownCode t with
  | Some (CNum m) => m =? n
  | _ => false
  end.

Definition stringifyCode (c : Code) : string :=
  match c with
  | CNum n => pretty n
  | CStr s => JsString.stringify s
  end.

(** [JSON.stringify(err)] for a response object without body. *)
Definition stringifyResponse (c : option Code) : string :=
  match c with
  | Some c => "{" ++ JsString.stringify "code" ++ ":" ++ stringifyCode c ++ "}"
  | None => "{}"
  end.

(** [errWithNewMessage(err, message)] *)
Definition errWithNewMessage (err : Thrown) (message : string) : Thrown :=
  match err with
  | JsError m c _ =>
      (* original = err; err.message = JSON.stringify(err.message) *)
      JsError (message ++ ": " ++ JsString.stringify m) c Self
  | ErrorResponse c (Some b) =>
      (* err = new Error(JSON.stringify(parsedError.message));
         err.code = parsedError.message *)
      JsError (message ++ ": " ++ JsString.stringify (eb_message b))
              (Some (CStr (eb_message b))) (Chained err)
  | ErrorResponse c None =>
      JsError (message ++ ": " ++ stringifyResponse c) None (Chained err)
  end.

(** The [TypeError] of reading a property of [null]. *)
Definition nullDereference (property : string) : Thrown :=
  JsError ("Cannot read property '" ++ property ++ "' of null") None NoCause.

(** ** Data model *)

(** Addresses of JavaScript objects. *)
Abbreviation loc := positive.

(** JSON values held in the fields of a store item. *)
#[warnings="-register-all"]
Inductive Json :=
| JNull
| JBool (b : bool)
| JNum (n : Z)
| JStr (s : string)
| JArr (items : list Json)
| JObj (members : list (string * Json)).

(** [StoreItem]: [{ [key: string]: any; eTag?: string }].  [eTag = None] is
    an item without the property. *)
Record StoreItem := mkStoreItem {
  eTag : option string;
  fields : gmap string Json
}.

Definition emptyItem : StoreItem := mkStoreItem None ∅.

Definition setETag (v : option string) (i : StoreItem) : StoreItem :=
  mkStoreItem v (fields i).

(** [CosmosDbStorageSettings].  A property holds [None] when it is
    [undefined] or [null]; request options are references to objects of the
    caller. *)
Record CosmosDbStorageSettings := mkSettings {
  serviceEndpoint : option string;
  authKey : option string;
  databaseId : option string;
  collectionId : option string;
  partitionKey : option string;
  partitionValue : option string;
  databaseCreationRequestOptions : option loc;
  documentCollectionRequestOptions : option loc
}.

Definition emptySettings : CosmosDbStorageSettings :=
  mkSettings None None None None None None None None.

Definition setPartitionKey (v : option string) (s : CosmosDbStorageSettings) :=
  mkSettings (serviceEndpoint s) (authKey s) (databaseId s) (collectionId s)
             v (partitionValue s)
             (databaseCreationRequestOptions s) (documentCollectionRequestOptions s).

Definition setPartitionValue (v : option string) (s : CosmosDbStorageSettings) :=
  mkSettings (serviceEndpoint s) (authKey s) (databaseId s) (collectionId s)
             (partitionKey s) v
             (databaseCreationRequestOptions s) (documentCollectionRequestOptions s).

(** The [document] property of a stored record: the payload object, or the
    string that overwrites it when the partition field is named [document]. *)
Inductive Payload :=
| PObject (item : StoreItem)
| PString (s : string).

(** [DocumentStoreItem]: the record sent to the container.  [doc_others] holds
    the properties beside [id], [realId] and [document] (the partition
    field). *)
Record DocumentStoreItem := mkDocument {
  doc_id : string;
  doc_realId : string;
  doc_document : Payload;
  doc_others : gmap string string
}.

(** [{ ...base, ...extra }] for a record [base] with the three envelope
    properties: a property of [extra] with the name of an envelope property
    overwrites it. *)
Definition spreadInto (base : DocumentStoreItem) (extra : gmap string string)
  : DocumentStoreItem :=
  mkDocument
    (default (doc_id base) (extra !! "id"))
    (default (doc_realId base) (extra !! "realId"))
    (match extra !! "document" with
     | Some s => PString s
     | None => doc_document base
     end)
    (delete "id" (delete "realId" (delete "document" extra)) ∪ doc_others base).

(** [QuerySpec] *)
Record QuerySpec := mkQuerySpec {
  query : string;
  parameters : list (gmap string string)
}.

(** Handles returned by the client. *)
Record Database := mkDatabase { db_id : option string }.
Record Container := mkContainer {
  co_database : Database;
  co_id : option string
}.

(** A record as the container holds it, with the version the service gave
    it ([_etag]). *)
Record Resource := mkResource {
  res_document : DocumentStoreItem;
  res_etag : string
}.

Definition ConnectionPolicy := gmap string Json.

Record CosmosClientOptions := mkClientOptions {
  masterKey : option string;
  endpoint : option string;
  connectionPolicy : ConnectionPolicy
}.

(** The private fields of a [CosmosDbStorage] instance.  [settings] is the
    address of the instance's own settings object. *)
Record CosmosDbStorage := mkStorage {
  settings : loc;
  client : CosmosClientOptions;
  container : option Container;
  database : option Database;
  documentCollectionCreationRequestOption : option loc;
  databaseCreationRequestOption : option loc
}.

Definition setDatabase (d : option Database) (t : CosmosDbStorage) :=
  mkStorage (settings t) (client t) (container t) d
            (documentCollectionCreationRequestOption t) (databaseCreationRequestOption t).

Definition setContainer (c : option Container) (t : CosmosDbStorage) :=
  mkStorage (settings t) (client t) c (database t)
            (documentCollectionCreationRequestOption t) (databaseCreationRequestOption t).

(** ** The Cosmos DB service *)

(** Requests the class sends through the client. *)
Inductive Call :=
| DatabasesCreateIfNotExists (id : option string) (options : option loc)
| ContainersCreateIfNotExists (db : Database) (id : option string)
    (partitionPaths : option (list (option string))) (options : option loc)
| ItemsQuery (co : Container) (spec : QuerySpec) (partition : option string)
| ItemsUpsert (co : Container) (body : DocumentStoreItem)
| ItemReplace (co : Container) (id : string) (partitionKeyPath : option string)
    (body : DocumentStoreItem) (ifMatch : string) (partition : option string)
| ItemDelete (co : Container) (id : string) (partitionKeyPath : option string)
    (partition : option string).

(** Reference model of the service: the records of the container by [id], a
    counter from which versions are drawn, the requests received so far (most
    recent first) and a script of faults: the n-th request still to come fails
    with the n-th entry when that entry is [Some]. *)
Record Cosmos := mkCosmos {
  documents : gmap string Resource;
  versions : nat;
  faults : list (option Thrown);
  calls : list Call
}.

Inductive Completion (A : Type) :=
| Normal (a : A)
| Throw (t : Thrown).
Arguments Normal {A} a.
Arguments Throw {A} t.

Definition newETag (n : nat) : string := "etag-" ++ pretty n.

Definition notFound : Thrown :=
  ErrorResponse (Some (CNum 404)) (Some (mkErrorBody "NotFound" "Resource Not Found")).

Definition preconditionFailed : Thrown :=
  ErrorResponse (Some (CNum 412))
    (Some (mkErrorBody "PreconditionFailed"
             "Operation cannot be performed because one of the specified precondition is not met")).

(** The service receives a request: it is logged, and the next entry of the
    fault script decides whether it fails before reaching the data. *)
Definition receive {A} (c : Call) (serve : Cosmos → Completion A * Cosmos)
    (w : Cosmos) : Completion A * Cosmos :=
  let logged := c :: calls w in
  match faults w with
  | Some e :: rest => (Throw e, mkCosmos (documents w) (versions w) rest logged)
  | None :: rest => serve (mkCosmos (documents w) (versions w) rest logged)
  | [] => serve (mkCosmos (documents w) (versions w) [] logged)
  end.

Definition store (r : DocumentStoreItem) (w : Cosmos) : Cosmos :=
  mkCosmos (<[doc_id r := mkResource r (newETag (versions w))]> (documents w))
           (S (versions w)) (faults w) (calls w).

Definition serveCreateDatabase (id : option string) (w : Cosmos)
  : Completion Database * Cosmos := (Normal (mkDatabase id), w).

Definition serveCreateContainer (db : Database) (id : option string) (w : Cosmos)
  : Completion Container * Cosmos := (Normal (mkContainer db id), w).

(** The query of [read]: the records whose [id] is the value of one of the
    parameters. *)
Definition requestedIds (spec : QuerySpec) : list string :=
  omap (λ p : gmap string string, p !! "value") (parameters spec).

Definition serveQuery (spec : QuerySpec) (w : Cosmos)
  : Completion (list Resource) * Cosmos :=
  (Normal (filter (λ r, doc_id (res_document r) ∈ requestedIds spec)
                  (map snd (map_to_list (documents w)))), w).

(** Insert or replace, whatever version is stored. *)
Definition serveUpsert (body : DocumentStoreItem) (w : Cosmos)
  : Completion unit * Cosmos := (Normal tt, store body w).

(** Replace under the access condition [IfMatch]: the record must exist and
    hold the given version. *)
Definition serveReplace (id : string) (body : DocumentStoreItem) (ifMatch : string)
    (w : Cosmos) : Completion unit * Cosmos :=
  match documents w !! id with
  | None => (Throw notFound, w)
  | Some r =>
      if decide (res_etag r = ifMatch)
      then (Normal tt,
            mkCosmos (<[id := mkResource body (newETag (versions w))]> (documents w))
                     (S (versions w)) (faults w) (calls w))
      else (Throw preconditionFailed, w)
  end.

Definition serveDelete (id : string) (w : Cosmos) : Completion unit * Cosmos :=
  match documents w !! id with
  | None => (Throw notFound, w)
  | Some _ => (Normal tt, mkCosmos (delete id (documents w)) (versions w) (faults w) (calls w))
  end.

(** ** Machine state and the monad of [async] code *)

(** Objects of the heap that the caller and the class share, the state of the
    instance, the service, and the rejections of promises nobody awaits. *)
Record Machine := mkMachine {
  this : CosmosDbStorage;
  settingsObjects : gmap loc CosmosDbStorageSettings;
  storeItemObjects : gmap loc StoreItem;
  cosmos : Cosmos;
  unhandledRejections : list Thrown
}.

Definition Js (A : Type) : Type := Machine → Completion A * Machine.

Definition ret {A} (a : A) : Js A := λ m, (Normal a, m).

Definition throw {A} (e : Thrown) : Js A := λ m, (Throw e, m).

Definition bind {A B} (c : Js A) (k : A → Js B) : Js B :=
  λ m, match c m with
       | (Normal a, m') => k a m'
       | (Throw e, m') => (Throw e, m')
       end.

(** [try { body } catch (err) { handler }] *)
Definition tryCatch {A} (body : Js A) (handler : Thrown → Js A) : Js A :=
  λ m, match body m with
       | (Throw e, m') => handler e m'
       | done => done
       end.

(** A promise that is created and dropped: its body runs, and a rejection
    reaches nobody but the list of unhandled rejections. *)
Definition floating (body : Js unit) : Js unit :=
  λ m, match body m with
       | (Normal _, m') => (Normal tt, m')
       | (Throw e, m') =>
           (Normal tt,
            mkMachine (this m') (settingsObjects m') (storeItemObjects m') (cosmos m')
                      (e :: unhandledRejections m'))
       end.

Declare Scope js_scope.
Delimit Scope js_scope with js.
Notation "'let*' x ':=' c 'in' k" := (bind c (λ x, k))
  (at level 10, x name, c at level 100, k at level 200,
   format "'[' 'let*'  x  ':='  c  'in' ']' '/' k") : js_scope.
Notation "c >> k" := (bind c (λ _, k))
  (at level 100, k at level 200, right associativity) : js_scope.
Local Open Scope js_scope.

(** [array.map(callback)] with the results thrown away. *)
Fixpoint forEach {A} (callback : A → Js unit) (array : list A) : Js unit :=
  match array with
  | [] => ret tt
  | x :: rest => callback x >> forEach callback rest
  end.

Fixpoint foldJs {A B} (step : B → A → Js B) (acc : B) (array : list A) : Js B :=
  match array with
  | [] => ret acc
  | x :: rest => let* acc' := step acc x in foldJs step acc' rest
  end.

Definition getThis : Js CosmosDbStorage := λ m, (Normal (this m), m).

Definition updateThis (f : CosmosDbStorage → CosmosDbStorage) : Js unit :=
  λ m, (Normal tt,
        mkMachine (f (this m)) (settingsObjects m) (storeItemObjects m) (cosmos m)
                  (unhandledRejections m)).

(** Reading [this.settings]. *)
Definition thisSettings : Js CosmosDbStorageSettings :=
  λ m, (Normal (default emptySettings (settingsObjects m !! settings (this m))), m).

Definition readItem (l : loc) : Js StoreItem :=
  λ m, (Normal (default emptyItem (storeItemObjects m !! l)), m).

(** A new object at an address not yet in use. *)
Definition allocate {V} (v : V) (h : gmap loc V) : loc * gmap loc V :=
  let l := fresh (dom h) in (l, <[l := v]> h).

Definition newItem (v : StoreItem) : Js loc :=
  λ m, let '(l, h) := allocate v (storeItemObjects m) in
       (Normal l,
        mkMachine (this m) (settingsObjects m) h (cosmos m) (unhandledRejections m)).

Definition updateItem (l : loc) (f : StoreItem → StoreItem) : Js unit :=
  λ m, (Normal tt,
        mkMachine (this m) (settingsObjects m) (alter f l (storeItemObjects m)) (cosmos m)
                  (unhandledRejections m)).

(** A request to the service and its answer. *)
Definition request {A} (c : Call) (serve : Cosmos → Completion A * Cosmos) : Js A :=
  λ m, let '(r, w) := receive c serve (cosmos m) in
       (r, mkMachine (this m) (settingsObjects m) (storeItemObjects m) w
                     (unhandledRejections m)).

(** [this.container.items], [this.container.item(..)], [this.database.containers]:
    reading a property of a handle that is still [null] throws. *)
Definition deref {H} (handle : option H) (property : string) : Js H :=
  match handle with
  | Some h => ret h
  | None => throw (nullDereference property)
  end.

Definition join (sep : string) (l : list string) : string :=
  match l with
  | [] => EmptyString
  | x :: rest => fold_left (λ acc y, acc ++ sep ++ y) rest x
  end.

Definition newline : string := String (ascii_of_nat 10) EmptyString.

(** The message for a response with code 400; the template literal of the
    source runs over two lines, the second indented. *)
Definition partitionHint (indent : string) : string :=
  "Error initializing container. You might be using partitions in a non-partitioned DB or"
  ++ newline ++ indent
  ++ "are not using partitions in a partitioned db that already contains partitioned data".

(** ** The class [CosmosDbStorage] *)

(** The two assignments by which the constructor normalizes [this.settings],
    the object at [own]. *)

(** Add a "/" to the beginning of partitionKey, if necessary:
    [if (this.settings.partitionKey) this.settings.partitionKey = ...] *)
Definition prependSeparator (own : loc) (heap : gmap loc CosmosDbStorageSettings)
  : gmap loc CosmosDbStorageSettings :=
  let s := default emptySettings (heap !! own) in
  if JsString.truthy (partitionKey s) then
    let pk := default EmptyString (partitionKey s) in
    alter (setPartitionKey
             (Some (if decide (JsString.charAt0 pk ≠ Some "/"%char)
                    then "/" ++ pk else pk))) own heap
  else heap.

(** [this.settings.partitionValue = this.settings.partitionValue || ''] *)
Definition defaultPartitionValue (own : loc) (heap : gmap loc CosmosDbStorageSettings)
  : gmap loc CosmosDbStorageSettings :=
  let s := default emptySettings (heap !! own) in
  alter (setPartitionValue (Some (JsString.orElse (partitionValue s) EmptyString)))
        own heap.

Section CosmosDbStorage.

(** [CosmosDbKeyEscape.escapeKey], defined in cosmosDbKeyEscape.ts, and the
    policy object [new DocumentBase.ConnectionPolicy()] of the documentdb
    package: both come from outside this file and are parameters here. *)
Variable escapeKey : string → string.
Variable newConnectionPolicy : ConnectionPolicy.

Definition error {A} (message : string) : Js A :=
  throw (JsError message None NoCause).

(** The typed blank record whose keys the constructor checks the partition
    key against. *)
Definition blankDocumentStoreItem : gmap string string :=
  {[ "id" := "true"; "realId" := "true"; "document" := "true" ]}.

(** The property name that [object[v]] reads for [v] of type
    [string | undefined]. *)
Definition propertyName (v : option string) : string := default "undefined" v.

(** [new CosmosDbStorage(settings, connectionPolicyConfigurator)] over the
    heap of settings objects: the instance, or the error thrown, and the
    heap afterwards. *)
Definition constructor (settings : option loc)
    (connectionPolicyConfigurator : option (ConnectionPolicy → ConnectionPolicy))
    (heap : gmap loc CosmosDbStorageSettings)
  : Completion CosmosDbStorage * gmap loc CosmosDbStorageSettings :=
  match settings with
  | None => (Throw (JsError "The settings parameter is required." None NoCause), heap)
  | Some caller =>
      let given := default emptySettings (heap !! caller) in
      if JsString.missing (serviceEndpoint given) then
        (Throw (JsError "The settings service Endpoint is required." None NoCause), heap)
      else if JsString.missing (authKey given) then
        (Throw (JsError "The settings authKey is required." None NoCause), heap)
      else if JsString.missing (databaseId given) then
        (Throw (JsError "The settings dataBase ID is required." None NoCause), heap)
      else if JsString.missing (collectionId given) then
        (Throw (JsError "The settings collection ID is required." None NoCause), heap)
      else
        (* this.settings = {...settings} *)
        let '(own, heap1) := allocate given heap in
        let policy :=
          match connectionPolicyConfigurator with
          | Some configure => configure newConnectionPolicy
          | None => newConnectionPolicy
          end in
        let cosmosClientOptions :=
          mkClientOptions (authKey given) (serviceEndpoint given) policy in
        let instance :=
          mkStorage own cosmosClientOptions None None
                    (documentCollectionRequestOptions given)
                    (databaseCreationRequestOptions given) in
        let heap2 := prependSeparator own heap1 in
        let heap3 := defaultPartitionValue own heap2 in
        let s := default emptySettings (heap3 !! own) in
        if decide (blankDocumentStoreItem !! propertyName (partitionKey s) = Some "true")
        then
          (Throw (JsError ("partitionKey cannot be set to any: "
                           ++ join "," ["id"; "realId"; "document"]) None NoCause),
           heap3)
        else (Normal instance, heap3)
  end.

(** [formatPartitionKeyValue()]: the object it builds from the settings
    [s], and the method that reads [this.settings]. *)
Definition partitionFields (s : CosmosDbStorageSettings) : gmap string string :=
  if JsString.truthy (partitionKey s)
  then {[ JsString.substr1 (default EmptyString (partitionKey s))
          := JsString.orElse (partitionValue s) EmptyString ]}
  else ∅.

Definition formatPartitionKeyValue : Js (gmap string string) :=
  let* s := thisSettings in
  ret (partitionFields s).

(** [getOrCreateDatabase()]; its callers ignore the handle it returns. *)
Definition getOrCreateDatabase : Js unit :=
  tryCatch
    (let* s := thisSettings in
     let* self := getThis in
     let* dbResponse :=
       request (DatabasesCreateIfNotExists (databaseId s)
                  (databaseCreationRequestOption self))
               (serveCreateDatabase (databaseId s)) in
     updateThis (setDatabase (Some dbResponse)))
    (λ err,
       (* Don't throw an error if the database already exists *)
       if negb (codeIs err 409)
       then throw (errWithNewMessage err "Error initializing database")
       else ret tt).

(** [getOrCreateContainer()] *)
Definition getOrCreateContainer : Js unit :=
  tryCatch
    (let* s := thisSettings in
     let* self := getThis in
     let partitionKeyOption := [partitionKey s] in
     let reqPartitionKey :=
       if JsString.truthy (partitionKey s) then Some partitionKeyOption else None in
     let* db := deref (database self) "containers" in
     let* coResponse :=
       request (ContainersCreateIfNotExists db (collectionId s) reqPartitionKey
                  (documentCollectionCreationRequestOption self))
               (serveCreateContainer db (collectionId s)) in
     updateThis (setContainer (Some coResponse)))
    (λ err,
       (* Throw unique error for 400s *)
       if codeIs err 400
       then throw (errWithNewMessage err (partitionHint "                "))
       (* Don't throw an error if the container already exists *)
       else if negb (codeIs err 409)
       then throw (errWithNewMessage err "Error initializing container")
       else ret tt).

(** [ensureContainerExists()] *)
Definition ensureContainerExists : Js unit :=
  let* self := getThis in
  match database self with
  | None => getOrCreateDatabase
  | Some _ => ret tt
  end >>
  let* self := getThis in
  match container self with
  | None => getOrCreateContainer
  | Some _ => ret tt
  end.

(** The text and the parameters of the query of [read]. *)
Definition parameterSequence (keys : list string) : string :=
  join "," (map (λ ix : nat, "@id" ++ pretty ix) (seq 0 (length keys))).

Definition parameterValues (partition : gmap string string) (keys : list string)
  : list (gmap string string) :=
  imap (λ (ix : nat) (key : string),
          (* { name, value, ...this.formatPartitionKeyValue() } *)
          partition ∪ {[ "name" := "@id" ++ pretty ix; "value" := escapeKey key ]})
       keys.

Definition querySpecFor (partition : gmap string string) (keys : list string)
  : QuerySpec :=
  mkQuerySpec
    ("SELECT c.id, c.realId, c.document, c._etag FROM c WHERE c.id in ("
     ++ parameterSequence keys ++ ")")
    (parameterValues partition keys).

(** The callback of [query.result.map] in [read]: the payload of the record
    becomes the item under [realId] and receives the version as [eTag].
    Setting a property on a payload that is a string throws (the module is
    strict code). *)
Definition pushDocument (storeItems : gmap string loc) (resource : Resource)
  : Js (gmap string loc) :=
  match doc_document (res_document resource) with
  | PObject item =>
      let* l := newItem item in
      updateItem l (setETag (Some (res_etag resource))) >>
      ret (<[doc_realId (res_document resource) := l]> storeItems)
  | PString s =>
      throw (JsError ("Cannot create property 'eTag' on string '" ++ s ++ "'")
                     None NoCause)
  end.

(** [read(keys)]; [None] is a [keys] that is [null] or [undefined]. *)
Definition read (keys : option (list string)) : Js (gmap string loc) :=
  match keys with
  | None => ret ∅
  | Some [] => ret ∅
  | Some keys =>
      let* partition := formatPartitionKeyValue in
      let querySpec := querySpecFor partition keys in
      ensureContainerExists >>
      tryCatch
        (let* s := thisSettings in
         let* self := getThis in
         let* co := deref (container self) "items" in
         let* result := request (ItemsQuery co querySpec (partitionValue s))
                                (serveQuery querySpec) in
         (* Push documents to storeItems *)
         foldJs pushDocument ∅ result)
        (λ err,
           (* Throw unique error for 400s *)
           if codeIs err 400
           then throw (errWithNewMessage err (partitionHint "                    "))
           else throw (errWithNewMessage err "Error reading from container"))
  end.

(** [changes[k]] and [Object.keys(changes)] for the object [changes], given
    by its properties in order. *)
Definition property (changes : list (string * loc)) (k : string) : option loc :=
  snd <$> find (λ kv, bool_decide (kv.1 = k)) changes.

Definition objectKeys (changes : list (string * loc)) : list string := map fst changes.

Definition itemAt (changes : list (string * loc)) (k : string) : Js StoreItem :=
  match property changes k with
  | Some l => readItem l
  | None => ret emptyItem
  end.

(** The body of the callback that [write] maps over the keys. *)
Definition writeKey (changes : list (string * loc)) (k : string) : Js unit :=
  (* const changesCopy = {...changes[k]} *)
  let* original := itemAt changes k in
  let* changesCopy := newItem original in
  (* delete changesCopy.eTag *)
  updateItem changesCopy (setETag None) >>
  let* payload := readItem changesCopy in
  let* partition := formatPartitionKeyValue in
  let documentChange :=
    spreadInto (mkDocument (escapeKey k) k (PObject payload) ∅) partition in
  let* item := itemAt changes k in
  let tag := eTag item in
  if negb (JsString.truthy tag) || bool_decide (tag = Some "*") then
    (* If new item or *, then insert or replace unconditionally *)
    tryCatch
      (let* self := getThis in
       let* co := deref (container self) "items" in
       request (ItemsUpsert co documentChange) (serveUpsert documentChange))
      (λ err, throw (errWithNewMessage err "Error upserting document"))
  else if (0 <? String.length (default EmptyString tag))%nat then
    (* If we have an etag, do opt. concurrency replace *)
    tryCatch
      (let* s := thisSettings in
       let* self := getThis in
       let condition := default EmptyString tag in
       let* co := deref (container self) "item" in
       request (ItemReplace co (escapeKey k) (partitionKey s) documentChange
                  condition (partitionValue s))
               (serveReplace (escapeKey k) documentChange condition))
      (λ err, throw (errWithNewMessage err "Error replacing document"))
  else error "etag empty".

(** [write(changes)].  The promises of the mapped callbacks are neither
    awaited nor returned; the model runs them to completion in the order of
    the keys. *)
Definition write (changes : option (list (string * loc))) : Js unit :=
  match changes with
  | None => ret tt
  | Some changes =>
      match objectKeys changes with
      | [] => ret tt
      | keys =>
          ensureContainerExists >>
          forEach (λ k, floating (writeKey changes k)) keys
      end
  end.

(** The point delete inside the [try] of the callback of [delete]:
    [this.container.item(escapeKey(k), partitionKey).delete(reqOptions)]. *)
Definition pointDelete (k : string) : Js unit :=
  let* s := thisSettings in
  let* self := getThis in
  let* co := deref (container self) "item" in
  request (ItemDelete co (escapeKey k) (partitionKey s) (partitionValue s))
          (serveDelete (escapeKey k)).

(** The body of the callback that [delete] maps over the keys. *)
Definition deleteKey (k : string) : Js unit :=
  tryCatch
    (pointDelete k)
    (λ err,
       (* Don't thow an error if trying to delete something that doesn't exist *)
       if negb (codeIs err 404)
       then throw (errWithNewMessage err "Unable to delete document")
       else ret tt).

(** [delete(keys)]: [await] on the array of promises waits for none of
    them. *)
Definition delete (keys : option (list string)) : Js unit :=
  match keys with
  | None => ret tt
  | Some [] => ret tt
  | Some keys =>
      ensureContainerExists >>
      forEach (λ k, floating (deleteKey k)) keys
  end.

End CosmosDbStorage.

(** ** The constructor of the previous revision of the class *)

Module Previous.

(** The previous revision does not default [partitionValue], and compares
    the normalized partition key with the three reserved paths. *)
Definition constructor (newConnectionPolicy : ConnectionPolicy)
    (settings : option loc)
    (connectionPolicyConfigurator : option (ConnectionPolicy → ConnectionPolicy))
    (heap : gmap loc CosmosDbStorageSettings)
  : Completion CosmosDbStorage * gmap loc CosmosDbStorageSettings :=
  match settings with
  | None => (Throw (JsError "The settings parameter is required." None NoCause), heap)
  | Some caller =>
      let given := default emptySettings (heap !! caller) in
      if JsString.missing (serviceEndpoint given) then
        (Throw (JsError "The settings service Endpoint is required." None NoCause), heap)
      else if JsString.missing (authKey given) then
        (Throw (JsError "The settings authKey is required." None NoCause), heap)
      else if JsString.missing (databaseId given) then
        (Throw (JsError "The settings dataBase ID is required." None NoCause), heap)
      else if JsString.missing (collectionId given) then
        (Throw (JsError "The settings collection ID is required." None NoCause), heap)
      else
        let '(own, heap1) := allocate given heap in
        let policy :=
          match connectionPolicyConfigurator with
          | Some configure => configure newConnectionPolicy
          | None => newConnectionPolicy
          end in
        let instance :=
          mkStorage own (mkClientOptions (authKey given) (serviceEndpoint given) policy)
                    None None
                    (documentCollectionRequestOptions given)
                    (databaseCreationRequestOptions given) in
        let heap2 := prependSeparator own heap1 in
        let s := default emptySettings (heap2 !! own) in
        (* ['/id', '/realId', '/document'].indexOf(this.settings.partitionKey) !== -1 *)
        if bool_decide (partitionKey s ∈ [Some "/id"; Some "/realId"; Some "/document"])
        then
          (Throw (JsError
                    ("partitionKey cannot be set to " ++ JsString.stringify "id" ++ ", "
                     ++ JsString.stringify "realId" ++ ", or "
                     ++ JsString.stringify "document") None NoCause),
           heap2)
        else (Normal instance, heap2)
  end.

End Previous.

(** ** The error taxonomy of the specification, on the errors of the code *)

(** [wrapped] is an [Error] whose message is [message], a colon and the text of
    [cause], and whose [original] property is [cause]: chained when the code
    made a new error, the error itself when [cause] was an [Error] already
    (the code then rewrites its message in place). *)
Definition wraps (message : string) (cause wrapped : Thrown) : Prop :=
  match wrapped with
  | JsError m _ o =>
      JsString.startsWith (message ++ ": ") m = true ∧
      match cause with
      | JsError _ _ _ => o = Self
      | ErrorResponse _ _ => o = Chained cause
      end
  | ErrorResponse _ _ => False
  end.

(** StorageDeleteError: a failure of the point delete, wrapped. *)
Definition StorageDeleteError (cause e : Thrown) : Prop :=
  wraps "Unable to delete document" cause e.

(** StorageWriteError: a failure of the upsert or of the replace, wrapped. *)
Definition StorageWriteError (cause e : Thrown) : Prop :=
  wraps "Error upserting document" cause e ∨ wraps "Error replacing document" cause e.

(** ConcurrencyConflictError: the failed conditional replace, wrapping the
    service's answer that the precondition is not met. *)
Definition ConcurrencyConflictError (e : Thrown) : Prop :=
  wraps "Error replacing document" preconditionFailed e.

(** InvalidVersionTagError: the error of the last branch of the callback of
    [write]. *)
Definition InvalidVersionTagError : Thrown := JsError "etag empty" None NoCause.

(** The service answers the next request (the fault script does not make it
    fail). *)
Definition answers (w : Cosmos) : Prop :=
  match faults w with
  | Some _ :: _ => False
  | _ => True
  end.

(** The payload a request or a record carries has no [eTag] property. *)
Definition payloadWithoutETag (d : DocumentStoreItem) : Prop :=
  match doc_document d with
  | PObject item => eTag item = None
  | PString _ => True
  end.

Definition sendsNoETag (c : Call) : Prop :=
  match c with
  | ItemsUpsert _ body => payloadWithoutETag body
  | ItemReplace _ _ _ body _ _ => payloadWithoutETag body
  | _ => True
  end.

(** The records of a container written through this class: each is held under
    its [id], the [id] is the escaped [realId], and the payload is an object. *)
Definition wellFormed (escapeKey : string → string) (docs : gmap string Resource) : Prop :=
  map_Forall (λ id r,
                doc_id (res_document r) = id ∧
                escapeKey (doc_realId (res_document r)) = id ∧
                ∃ item, doc_document (res_document r) = PObject item) docs.

(** The normalization of the settings in the words of the specification: a
    partition key that is given without the leading separator gets one, and
    the partition value defaults to the empty string. *)
Definition normalized (s : CosmosDbStorageSettings) : CosmosDbStorageSettings :=
  let pk :=
    match partitionKey s with
    | Some k =>
        if JsString.isEmpty k then Some k
        else if decide (JsString.charAt0 k ≠ Some "/"%char) then Some ("/" ++ k)
        else Some k
    | None => None
    end in
  mkSettings (serviceEndpoint s) (authKey s) (databaseId s) (collectionId s)
             pk (Some (JsString.orElse (partitionValue s) EmptyString))
             (databaseCreationRequestOptions s) (documentCollectionRequestOptions s).

(** The four required settings pass the tests of the constructor. *)
Definition validated (s : CosmosDbStorageSettings) : bool :=
  negb (JsString.missing (serviceEndpoint s)) && negb (JsString.missing (authKey s))
  && negb (JsString.missing (databaseId s)) && negb (JsString.missing (collectionId s)).

(** The settings of the tests of the repository, with a given partition key
    and value. *)
Definition sampleSettings (pk : option string) (pv : option string)
  : CosmosDbStorageSettings :=
  mkSettings (Some "https://localhost:8081") (Some "authKey") (Some "test-db")
             (Some "bot-storage") pk pv None None.

(** The service answers every request to come. *)
Definition answersAll (w : Cosmos) : Prop := Forall (λ f, f = None) (faults w).

(** The service after it has accepted the request [c]. *)
Definition accept (c : Call) (w : Cosmos) : Cosmos :=
  mkCosmos (documents w) (versions w) (tail (faults w)) (c :: calls w).

(** [c] takes every machine to one that [R] relates it to. *)
Definition Preserves (R : Machine → Machine → Prop) {A} (c : Js A) : Prop :=
  ∀ m, R m (c m).2.

(** What a [write] leaves behind: the item objects that existed are as they
    were, and every request and every record that is new carries a payload
    without [eTag]. *)
Definition writeFrame (m m' : Machine) : Prop :=
  (∀ l, is_Some (storeItemObjects m !! l) →
        storeItemObjects m' !! l = storeItemObjects m !! l) ∧
  (∀ c, c ∈ calls (cosmos m') → c ∈ calls (cosmos m) ∨ sendsNoETag c) ∧
  (∀ id r, documents (cosmos m') !! id = Some r →
           documents (cosmos m) !! id = Some r ∨ payloadWithoutETag (res_document r)).

(** *** The steps of the callback of [write], for the statements below *)

(** The settings the instance reads. *)
Definition currentSettings (m : Machine) : CosmosDbStorageSettings :=
  default emptySettings (settingsObjects m !! settings (this m)).

(** The item [changes[k]] as the heap holds it. *)
Definition itemOf (changes : list (string * loc)) (k : string) (m : Machine) : StoreItem :=
  match property changes k with
  | Some l => default emptyItem (storeItemObjects m !! l)
  | None => emptyItem
  end.

(** The record the callback builds for key [k]. *)
Definition documentChangeOf (escapeKey : string → string)
    (changes : list (string * loc)) (k : string) (m : Machine) : DocumentStoreItem :=
  spreadInto (mkDocument (escapeKey k) k (PObject (setETag None (itemOf changes k m))) ∅)
             (partitionFields (currentSettings m)).

(** The machine once the callback has made its copy of the item, with the
    service in state [w]. *)
Definition afterCopy (changes : list (string * loc)) (k : string) (w : Cosmos)
    (m : Machine) : Machine :=
  mkMachine (this m) (settingsObjects m)
            (<[fresh (dom (storeItemObjects m)) := setETag None (itemOf changes k m)]>
               (storeItemObjects m))
            w (unhandledRejections m).

(** The version tag of the item selects the unconditional branch: it is
    absent, empty, or the wildcard. *)
Definition unconditional (tag : option string) : bool :=
  negb (JsString.truthy tag) || bool_decide (tag = Some "*").

(** *** Sample machines *)

Definition sampleDatabase : Database := mkDatabase (Some "test-db").
Definition sampleContainer : Container := mkContainer sampleDatabase (Some "bot-storage").

(** An instance as the constructor leaves it (no handle yet), and one that has
    both handles. *)
Definition newInstance : CosmosDbStorage :=
  mkStorage 2%positive
    (mkClientOptions (Some "authKey") (Some "https://localhost:8081") ∅)
    None None None None.

Definition provisionedInstance : CosmosDbStorage :=
  setContainer (Some sampleContainer) (setDatabase (Some sampleDatabase) newInstance).

(** A machine around an instance built from the settings of the tests without
    partition key: the caller's settings object at address 1, the instance's
    own at address 2. *)
Definition sampleMachine (self : CosmosDbStorage) (items : gmap loc StoreItem)
    (w : Cosmos) : Machine :=
  mkMachine self
    {[ 1%positive := sampleSettings None None;
       2%positive := normalized (sampleSettings None None) ]}
    items w [].

(** The item [{ count: 1 }] with a given [eTag]. *)
Definition countItem (tag : option string) : StoreItem :=
  mkStoreItem tag {[ "count" := JNum 1 ]}.

(** The record that [write] stores for key [k] with payload [{ count: 1 }],
    at version [v]. *)
Definition countResource (escapeKey : string → string) (k : string) (v : string)
  : Resource :=
  mkResource (mkDocument (escapeKey k) k (PObject (countItem None)) ∅) v.

(** An answer of the service that is neither a conflict nor a missing record. *)
Definition serviceUnavailable : Thrown :=
  ErrorResponse (Some (CNum 503))
    (Some (mkErrorBody "ServiceUnavailable" "Service is currently unavailable")).

(** The answer "already exists" to a creation. *)
Definition conflict : Thrown :=
  ErrorResponse (Some (CNum 409)) (Some (mkErrorBody "Conflict" "Resource already exists")).

(** *** Provisioning, for the statements below *)

Definition isCreateDatabase (c : Call) : bool :=
  match c with
  | DatabasesCreateIfNotExists _ _ => true
  | _ => false
  end.

Definition isCreateContainer (c : Call) : bool :=
  match c with
  | ContainersCreateIfNotExists _ _ _ _ => true
  | _ => false
  end.

(** What the provisioning step may change: the two handles, and the log and
    the script of the service. *)
Definition provisioningFrame (m m' : Machine) : Prop :=
  settings (this m') = settings (this m) ∧
  settingsObjects m' = settingsObjects m ∧
  storeItemObjects m' = storeItemObjects m ∧
  documents (cosmos m') = documents (cosmos m) ∧
  versions (cosmos m') = versions (cosmos m) ∧
  unhandledRejections m' = unhandledRejections m.

(** *** Sample runs *)

(** An [escapeKey] for keys that have no character to escape. *)
Definition plainKey (k : string) : string := k.

(** A provisioned machine whose container holds the record of key
    [keyUpdate] at version [etag-7], while the caller's item, at address 1,
    still carries [etag-3]. *)
Definition staleMachine : Machine :=
  sampleMachine provisionedInstance
    {[ 1%positive := countItem (Some "etag-3") ]}
    (mkCosmos {[ "keyUpdate" := countResource plainKey "keyUpdate" "etag-7" ]} 8 [] []).

(** A new instance in front of a container that holds the record of key
    [keyCreate]. *)
Definition readMachine : Machine :=
  sampleMachine newInstance ∅
    (mkCosmos {[ "keyCreate" := countResource plainKey "keyCreate" "etag-0" ]} 1 [] []).


(** The partition field of the settings [s] does not take the name of a field
    of the envelope. *)
Definition partitionApart (s : CosmosDbStorageSettings) : Prop :=
  partitionFields s !! "id" = None ∧
  partitionFields s !! "realId" = None ∧
  partitionFields s !! "document" = None.

(** What the callbacks of [write] keep: the instance and its settings, and
    the well-formedness of the container. *)
Definition keepsWellFormed (escapeKey : string → string) (m m' : Machine) : Prop :=
  this m' = this m ∧
  settingsObjects m' = settingsObjects m ∧
  (wellFormed escapeKey (documents (cosmos m)) →
   wellFormed escapeKey (documents (cosmos m'))).


(** *** Further notions for the properties of the class *)

(** Every character of [s] is white space. *)
Fixpoint allWhiteSpace (s : string) : bool :=
  match s with
  | EmptyString => true
  | String c rest => JsString.isWhiteSpace c && allWhiteSpace rest
  end.

(** A setting is present and has a character that is not white space. *)
Definition hasContent (v : option string) : Prop :=
  ∃ s, v = Some s ∧ allWhiteSpace s = false.

(** A partition key without its leading separator, if it has one. *)
Definition stripSeparator (k : string) : string :=
  if decide (JsString.charAt0 k = Some "/"%char) then JsString.substr1 k else k.

(** The paths the previous revision of the constructor refuses. *)
Definition reservedPaths : list (option string) :=
  [Some "/id"; Some "/realId"; Some "/document"].

(** The machine [m] with the service in state [w]. *)
Definition withCosmos (w : Cosmos) (m : Machine) : Machine :=
  mkMachine (this m) (settingsObjects m) (storeItemObjects m) w (unhandledRejections m).

(** The service after the request [c] has failed on the head of the fault
    script, of which [rest] remains. *)
Definition refused (c : Call) (rest : list (option Thrown)) (w : Cosmos) : Cosmos :=
  mkCosmos (documents w) (versions w) rest (c :: calls w).

(** The number of handles the instance still lacks. *)
Definition handlesMissing (t : CosmosDbStorage) : nat :=
  (match database t with Some _ => 0 | None => 1 end
   + match container t with Some _ => 0 | None => 1 end)%nat.

(** The request by which the provisioning step asks for the database. *)
Definition createDatabaseCall (m : Machine) : Call :=
  DatabasesCreateIfNotExists (databaseId (currentSettings m))
    (databaseCreationRequestOption (this m)).

(** The request by which it asks for the container of the database [db]. *)
Definition createContainerCall (db : Database) (m : Machine) : Call :=
  ContainersCreateIfNotExists db (collectionId (currentSettings m))
    (if JsString.truthy (partitionKey (currentSettings m))
     then Some [partitionKey (currentSettings m)] else None)
    (documentCollectionCreationRequestOption (this m)).

(** What [read] may change besides the instance's handles and the log and
    script of the service: it adds item objects. *)
Definition readFrame (m m' : Machine) : Prop :=
  settingsObjects m' = settingsObjects m ∧
  storeItemObjects m ⊆ storeItemObjects m' ∧
  documents (cosmos m') = documents (cosmos m) ∧
  versions (cosmos m') = versions (cosmos m) ∧
  unhandledRejections m' = unhandledRejections m.

(** What [delete] may change besides the handles, the log, the script and the
    unhandled rejections: it removes records, and only records whose [id] is
    in [ids]. *)
Definition deleteFrame (ids : list string) (m m' : Machine) : Prop :=
  settingsObjects m' = settingsObjects m ∧
  storeItemObjects m' = storeItemObjects m ∧
  documents (cosmos m') ⊆ documents (cosmos m) ∧
  (∀ id, id ∉ ids → documents (cosmos m') !! id = documents (cosmos m) !! id) ∧
  versions (cosmos m') = versions (cosmos m).

(** *** Sample values of the further properties *)

(** The heap of a caller that holds the settings [s] at address 1. *)
Definition callerHeap (s : CosmosDbStorageSettings) : gmap loc CosmosDbStorageSettings :=
  {[ 1%positive := s ]}.

(** The settings of the tests with the partition key [pk], given without the
    separator, and the partition value [v1]. *)
Definition partitionedSettings : CosmosDbStorageSettings :=
  sampleSettings (Some "pk") (Some "v1").

(** A service with an empty container that answers, and one whose next answer
    is the failure [err]. *)
Definition emptyService : Cosmos := mkCosmos ∅ 0 [] [].

Definition failingService (err : Thrown) : Cosmos := mkCosmos ∅ 0 [Some err] [].

(** An instance that holds the database handle only. *)
Definition halfProvisionedInstance : CosmosDbStorage :=
  setDatabase (Some sampleDatabase) newInstance.

(** *** The records of [write] *)

(** The record that the callback of [write] builds for key [k] from the
    caller's item [item], under the settings [s]: the envelope around the
    item without its [eTag], with the partition field spread over it. *)
Definition recordFor (escapeKey : string → string) (s : CosmosDbStorageSettings)
    (k : string) (item : StoreItem) : DocumentStoreItem :=
  spreadInto (mkDocument (escapeKey k) k (PObject (setETag None item)) ∅)
             (partitionFields s).

(** The request that carries it to the container [co]: an upsert when the
    [eTag] of the item is absent, empty or the wildcard, a replace under that
    [eTag] otherwise. *)
Definition requestFor (escapeKey : string → string) (co : Container)
    (s : CosmosDbStorageSettings) (k : string) (item : StoreItem) : Call :=
  if unconditional (eTag item)
  then ItemsUpsert co (recordFor escapeKey s k item)
  else ItemReplace co (escapeKey k) (partitionKey s) (recordFor escapeKey s k item)
         (default EmptyString (eTag item)) (partitionValue s).

(** The values of [changes] are objects of the heap. *)
Definition itemsAllocated (changes : list (string * loc)) (m : Machine) : Prop :=
  ∀ k l, (k, l) ∈ changes → is_Some (storeItemObjects m !! l).

(** A string made of one NO-BREAK SPACE, and the settings of the tests with
    it as service endpoint. *)
Definition nonBreakingSpace : string := String (ascii_of_nat 160) EmptyString.

Definition blankEndpointSettings : CosmosDbStorageSettings :=
  mkSettings (Some nonBreakingSpace) (Some "authKey") (Some "test-db")
             (Some "bot-storage") None None None None.

(** * Properties *)

(** ** Heap allocation *)

Section Allocation.
Context {V : Type}.
Implicit Types (h : gmap loc V) (v : V) (l : loc).

Lemma allocate_fresh v h : h !! (allocate v h).1 = None.
Proof.
  unfold allocate; simpl. apply not_elem_of_dom. apply is_fresh.
Qed.

Lemma allocate_lookup v h : (allocate v h).2 !! (allocate v h).1 = Some v.
Proof. unfold allocate; simpl. apply lookup_insert_eq. Qed.

Lemma allocate_frame v h l : is_Some (h !! l) → (allocate v h).2 !! l = h !! l.
Proof.
  intros Hl. unfold allocate; simpl. apply lookup_insert_ne.
  intros <-. pose proof (allocate_fresh v h) as Hf. unfold allocate in Hf; simpl in Hf.
  rewrite Hf in Hl. by destruct Hl.
Qed.
End Allocation.

(** ** The constructor *)

Lemma blank_lookup k v :
  blankDocumentStoreItem !! k = Some v → k = "id" ∨ k = "realId" ∨ k = "document".
Proof.
  unfold blankDocumentStoreItem. intros H.
  apply lookup_insert_Some in H as [[<- _]|[_ H]]; [tauto|].
  apply lookup_insert_Some in H as [[<- _]|[_ H]]; [tauto|].
  apply lookup_singleton_Some in H as [<- _]. tauto.
Qed.

(** The key the final check looks up is never a key of the blank record. *)
Lemma final_check_never_fires (s : CosmosDbStorageSettings) :
  blankDocumentStoreItem !! propertyName (partitionKey (normalized s)) ≠ Some "true".
Proof.
  intros H. apply blank_lookup in H. unfold normalized, propertyName in H; simpl in H.
  destruct (partitionKey s) as [k|]; simpl in H.
  - destruct k as [|c k]; simpl in H.
    + destruct H as [H|[H|H]]; discriminate.
    + destruct (decide (Some c ≠ Some "/"%char)) as [Hc|Hc]; simpl in H.
      * destruct H as [H|[H|H]]; discriminate.
      * apply dec_stable in Hc. injection Hc as ->.
        destruct H as [H|[H|H]]; discriminate.
  - destruct H as [H|[H|H]]; discriminate.
Qed.

Lemma normalize_own own s heap :
  defaultPartitionValue own (prependSeparator own (<[own := s]> heap))
  = <[own := normalized s]> heap.
Proof.
  unfold prependSeparator. rewrite lookup_insert_eq; simpl.
  destruct s as [e a d c pk pv o1 o2]; simpl.
  assert (Hpv : ∀ pk', defaultPartitionValue own (<[own := mkSettings e a d c pk' pv o1 o2]> heap)
                 = <[own := mkSettings e a d c pk' (Some (JsString.orElse pv EmptyString)) o1 o2]> heap).
  { intros pk'. unfold defaultPartitionValue. rewrite lookup_insert_eq; simpl.
    by rewrite alter_insert_eq. }
  unfold normalized; simpl.
  destruct pk as [[|ch k]|]; simpl; try apply Hpv.
  rewrite alter_insert_eq. unfold setPartitionKey; simpl. rewrite Hpv.
  by destruct (decide (Some ch ≠ Some "/"%char)).
Qed.

(** With the four required settings present the constructor returns an
    instance: its own settings object is a new object holding the normalized
    copy, and the final check lets every partition key through. *)
Lemma constructor_validated policy configure heap caller s :
  heap !! caller = Some s →
  validated s = true →
  constructor policy (Some caller) configure heap =
    (Normal (mkStorage (fresh (dom heap))
               (mkClientOptions (authKey s) (serviceEndpoint s)
                  (match configure with Some f => f policy | None => policy end))
               None None
               (documentCollectionRequestOptions s) (databaseCreationRequestOptions s)),
     <[fresh (dom heap) := normalized s]> heap).
Proof.
  intros Hs Hv. unfold validated in Hv.
  apply andb_prop in Hv as [Hv H4]. apply andb_prop in Hv as [Hv H3].
  apply andb_prop in Hv as [H1 H2].
  apply negb_true_iff in H1, H2, H3, H4.
  unfold constructor. rewrite Hs; simpl. rewrite H1, H2, H3, H4.
  unfold allocate. rewrite normalize_own, lookup_insert_eq. cbn [default].
  case_decide as Hb; [|reflexivity].
  by apply final_check_never_fires in Hb.
Qed.

Lemma constructor_rejected policy configure heap caller s :
  heap !! caller = Some s →
  validated s = false →
  ∃ e, constructor policy (Some caller) configure heap = (Throw e, heap).
Proof.
  intros Hs Hv. unfold validated in Hv. unfold constructor. rewrite Hs; simpl.
  destruct (JsString.missing (serviceEndpoint s)); [eauto|].
  destruct (JsString.missing (authKey s)); [eauto|].
  destruct (JsString.missing (databaseId s)); [eauto|].
  destruct (JsString.missing (collectionId s)); [eauto|].
  discriminate.
Qed.

(** C10. The constructor works on a copy: whatever the outcome, the caller's
    settings object is what it was; on success the instance's settings are a
    different object that holds the normalized copy (separator prepended to
    the partition key, partition value defaulted to the empty string), and an
    assignment to the caller's object afterwards leaves the instance's
    settings as they are. *)
Theorem constructor_copies_settings
    (policy : ConnectionPolicy) (configure : option (ConnectionPolicy → ConnectionPolicy))
    (heap : gmap loc CosmosDbStorageSettings) (caller : loc) :
  (constructor policy (Some caller) configure heap).2 !! caller = heap !! caller ∧
  match (constructor policy (Some caller) configure heap).1 with
  | Normal instance =>
      settings instance ≠ caller ∧
      (constructor policy (Some caller) configure heap).2 !! settings instance
        = normalized <$> heap !! caller ∧
      ∀ changed : CosmosDbStorageSettings,
        <[caller := changed]> (constructor policy (Some caller) configure heap).2
          !! settings instance
        = (constructor policy (Some caller) configure heap).2 !! settings instance
  | Throw _ => (constructor policy (Some caller) configure heap).2 = heap
  end.
Proof.
  destruct (heap !! caller) as [s|] eqn:Hs.
  - destruct (validated s) eqn:Hv.
    + rewrite (constructor_validated _ _ _ _ _ Hs Hv); simpl.
      assert (Hne : fresh (dom heap) ≠ caller).
      { intros Heq. pose proof (is_fresh (dom heap)) as Hf. rewrite Heq in Hf.
        apply Hf. apply elem_of_dom. eauto. }
      rewrite lookup_insert_ne by done. repeat split; try done.
      * apply lookup_insert_eq.
      * intros changed. by rewrite lookup_insert_ne.
    + destruct (constructor_rejected policy configure _ _ _ Hs Hv) as [e ->]; simpl.
      by rewrite Hs.
  - unfold constructor. rewrite Hs; simpl. by rewrite Hs.
Qed.

(** ** Empty input *)

(** C9. [read], [write] and [delete] with no keys, or with [null], complete
    at once: the result of [read] is the empty mapping, and the machine, with
    the service and the log of requests it has received, is untouched. *)
Theorem empty_input_is_no_op (escapeKey : string → string) (m : Machine) :
  read escapeKey None m = (Normal ∅, m) ∧
  read escapeKey (Some []) m = (Normal ∅, m) ∧
  write escapeKey None m = (Normal tt, m) ∧
  write escapeKey (Some []) m = (Normal tt, m) ∧
  delete escapeKey None m = (Normal tt, m) ∧
  delete escapeKey (Some []) m = (Normal tt, m).
Proof. repeat split. Qed.

(** ** The reserved names *)

Lemma previous_constructor_refuses_reserved (policy : ConnectionPolicy) :
  Forall (λ pk, ∃ e heap',
            Previous.constructor policy (Some 1%positive) None
              {[ 1%positive := sampleSettings (Some pk) None ]} = (Throw e, heap'))
         ["id"; "/id"; "realId"; "/realId"; "document"; "/document"].
Proof.
  repeat (apply Forall_cons; split; [eexists _, _; vm_compute; reflexivity|]).
  by apply Forall_nil.
Qed.

(** C4, on the code as it is.  A partition key that names a reserved field of
    the envelope, with or without the separator, passes the constructor: the
    instance is returned, and its settings hold the separator followed by the
    reserved name. *)
Theorem constructor_accepts_reserved_partition_key (policy : ConnectionPolicy) :
  Forall (λ pk, ∃ instance heap' s name,
            constructor policy (Some 1%positive) None
              {[ 1%positive := sampleSettings (Some pk) None ]} = (Normal instance, heap') ∧
            heap' !! settings instance = Some s ∧
            partitionKey s = Some ("/" ++ name) ∧
            name ∈ ["id"; "realId"; "document"])
         ["id"; "/id"; "realId"; "/realId"; "document"; "/document"].
Proof.
  repeat (apply Forall_cons; split;
          [eexists _, _, _, _; split;
           [apply constructor_validated; [apply lookup_singleton_eq|reflexivity]
           |split; [cbn [settings]; apply lookup_insert_eq
                   |split; [reflexivity|set_solver]]] |]).
  by apply Forall_nil.
Qed.

(** ** Frame rules of the monad *)

Section Frames.
Context (R : Machine → Machine → Prop) `{!Reflexive R} `{!Transitive R}.

Lemma Preserves_ret {A} (a : A) : Preserves R (ret a).
Proof. intros m. reflexivity. Qed.

Lemma Preserves_throw {A} e : Preserves R (@throw A e).
Proof. intros m. reflexivity. Qed.

Lemma Preserves_bind {A B} (c : Js A) (k : A → Js B) :
  Preserves R c → (∀ a, Preserves R (k a)) → Preserves R (bind c k).
Proof.
  intros Hc Hk m. unfold bind. specialize (Hc m).
  destruct (c m) as [[a|e] m1]; simpl in *; [|done].
  etransitivity; [exact Hc|apply Hk].
Qed.

Lemma Preserves_tryCatch {A} (c : Js A) (h : Thrown → Js A) :
  Preserves R c → (∀ e, Preserves R (h e)) → Preserves R (tryCatch c h).
Proof.
  intros Hc Hh m. unfold tryCatch. specialize (Hc m).
  destruct (c m) as [[a|e] m1]; simpl in *; [done|].
  etransitivity; [exact Hc|apply Hh].
Qed.

Lemma Preserves_floating (c : Js unit) :
  (∀ m e, R m (mkMachine (this m) (settingsObjects m) (storeItemObjects m) (cosmos m)
                         (e :: unhandledRejections m))) →
  Preserves R c → Preserves R (floating c).
Proof.
  intros Hun Hc m. unfold floating. specialize (Hc m).
  destruct (c m) as [[a|e] m1]; simpl in *; [done|].
  etransitivity; [exact Hc|apply Hun].
Qed.

Lemma Preserves_forEach {A} (f : A → Js unit) (l : list A) :
  (∀ a, Preserves R (f a)) → Preserves R (forEach f l).
Proof.
  intros Hf. induction l as [|a l IH]; simpl.
  - apply Preserves_ret.
  - apply Preserves_bind; auto.
Qed.

Lemma Preserves_getThis : Preserves R getThis.
Proof. intros m. reflexivity. Qed.

Lemma Preserves_thisSettings : Preserves R thisSettings.
Proof. intros m. reflexivity. Qed.

Lemma Preserves_readItem l : Preserves R (readItem l).
Proof. intros m. reflexivity. Qed.

Lemma Preserves_deref {H} (h : option H) p : Preserves R (deref h p).
Proof. destruct h; [apply Preserves_ret|apply Preserves_throw]. Qed.

Lemma Preserves_formatPartitionKeyValue : Preserves R formatPartitionKeyValue.
Proof. intros m. reflexivity. Qed.

Lemma Preserves_itemAt changes k : Preserves R (itemAt changes k).
Proof.
  unfold itemAt. destruct (property changes k); [apply Preserves_readItem|apply Preserves_ret].
Qed.
End Frames.

Global Instance writeFrame_refl : Reflexive writeFrame.
Proof. intros m. repeat split; auto. Qed.

Global Instance writeFrame_trans : Transitive writeFrame.
Proof.
  intros m1 m2 m3 (Ha & Hb & Hc) (Ha' & Hb' & Hc'). repeat split.
  - intros l Hl. rewrite Ha'; [by apply Ha|]. by rewrite Ha.
  - intros c Hin. destruct (Hb' c Hin) as [?|?]; auto.
  - intros id r Hr. destruct (Hc' id r Hr) as [?|?]; auto.
Qed.

(** Steps that leave the machine as it is, for a given relation. *)
Ltac frame_step R :=
  first [ apply (Preserves_ret R) | apply (Preserves_throw R)
        | apply (Preserves_getThis R) | apply (Preserves_thisSettings R)
        | apply (Preserves_readItem R) | apply (Preserves_deref R)
        | apply (Preserves_formatPartitionKeyValue R) | apply (Preserves_itemAt R) ].

Lemma writeFrame_unhandled m e :
  writeFrame m (mkMachine (this m) (settingsObjects m) (storeItemObjects m) (cosmos m)
                          (e :: unhandledRejections m)).
Proof. repeat split; auto. Qed.

Lemma writeFrame_updateThis f : Preserves writeFrame (updateThis f).
Proof. intros m. repeat split; auto. Qed.

(** A request whose body, if it has one, carries no [eTag], served without
    storing anything else than that body. *)
Lemma writeFrame_request {A} c (serve : Cosmos → Completion A * Cosmos) :
  sendsNoETag c →
  (∀ w id r, documents (serve w).2 !! id = Some r →
             documents w !! id = Some r ∨ payloadWithoutETag (res_document r)) →
  (∀ w, calls (serve w).2 = calls w) →
  Preserves writeFrame (request c serve).
Proof.
  intros Hc Hdocs Hcalls m. unfold request, receive.
  destruct (faults (cosmos m)) as [|[e|] rest]; simpl.
  - match goal with |- context [serve ?w] =>
      pose proof (Hdocs w) as Hd; pose proof (Hcalls w) as Hl;
      destruct (serve w) as [r w'] end; simpl in *.
    repeat split; auto; simpl.
    + intros c' Hin. rewrite Hl in Hin. apply elem_of_cons in Hin as [->|Hin]; auto.
  - repeat split; auto; simpl.
    intros c' Hin. apply elem_of_cons in Hin as [->|Hin]; auto.
  - match goal with |- context [serve ?w] =>
      pose proof (Hdocs w) as Hd; pose proof (Hcalls w) as Hl;
      destruct (serve w) as [r w'] end; simpl in *.
    repeat split; auto; simpl.
    + intros c' Hin. rewrite Hl in Hin. apply elem_of_cons in Hin as [->|Hin]; auto.
Qed.

Lemma writeFrame_getOrCreateDatabase : Preserves writeFrame getOrCreateDatabase.
Proof.
  unfold getOrCreateDatabase.
  apply (Preserves_tryCatch writeFrame).
  - apply (Preserves_bind writeFrame); [frame_step writeFrame|intros s].
    apply (Preserves_bind writeFrame); [frame_step writeFrame|intros self].
    apply (Preserves_bind writeFrame); [|intros db; apply writeFrame_updateThis].
    apply writeFrame_request; [exact I|auto|auto].
  - intros e. destruct (negb (codeIs e 409)); frame_step writeFrame.
Qed.

Lemma writeFrame_getOrCreateContainer : Preserves writeFrame getOrCreateContainer.
Proof.
  unfold getOrCreateContainer.
  apply (Preserves_tryCatch writeFrame).
  - apply (Preserves_bind writeFrame); [frame_step writeFrame|intros s].
    apply (Preserves_bind writeFrame); [frame_step writeFrame|intros self].
    apply (Preserves_bind writeFrame); [frame_step writeFrame|intros db].
    apply (Preserves_bind writeFrame); [|intros co; apply writeFrame_updateThis].
    apply writeFrame_request; [exact I|auto|auto].
  - intros e. destruct (codeIs e 400); [frame_step writeFrame|].
    destruct (negb (codeIs e 409)); frame_step writeFrame.
Qed.

Lemma writeFrame_ensureContainerExists : Preserves writeFrame ensureContainerExists.
Proof.
  unfold ensureContainerExists.
  apply (Preserves_bind writeFrame); [frame_step writeFrame|intros self].
  apply (Preserves_bind writeFrame).
  - destruct (database self); [frame_step writeFrame|apply writeFrame_getOrCreateDatabase].
  - intros _. apply (Preserves_bind writeFrame); [frame_step writeFrame|intros self'].
    destruct (container self'); [frame_step writeFrame|apply writeFrame_getOrCreateContainer].
Qed.

Lemma spreadInto_payload base extra :
  payloadWithoutETag base → payloadWithoutETag (spreadInto base extra).
Proof.
  unfold payloadWithoutETag, spreadInto; simpl. by destruct (extra !! "document").
Qed.

Lemma serveReplace_documents id body tag w id' r :
  payloadWithoutETag body →
  documents (serveReplace id body tag w).2 !! id' = Some r →
  documents w !! id' = Some r ∨ payloadWithoutETag (res_document r).
Proof.
  intros Hb. unfold serveReplace. destruct (documents w !! id) as [old|]; simpl; auto.
  destruct (decide (res_etag old = tag)); simpl; auto.
  intros H. apply lookup_insert_Some in H as [[_ <-]|[_ H]]; auto.
Qed.

Lemma serveUpsert_documents body w id' r :
  payloadWithoutETag body →
  documents (serveUpsert body w).2 !! id' = Some r →
  documents w !! id' = Some r ∨ payloadWithoutETag (res_document r).
Proof.
  intros Hb. unfold serveUpsert, store; simpl.
  intros H. apply lookup_insert_Some in H as [[_ <-]|[_ H]]; auto.
Qed.

Lemma serveReplace_calls id body tag w : calls (serveReplace id body tag w).2 = calls w.
Proof.
  unfold serveReplace. destruct (documents w !! id) as [old|]; simpl; auto.
  by destruct (decide (res_etag old = tag)).
Qed.

(** The part of the callback of [write] that follows the copy: it sends the
    record built around [payload]. *)
Lemma writeFrame_send escapeKey changes k payload :
  eTag payload = None →
  Preserves writeFrame
    (bind formatPartitionKeyValue (λ partition,
       let documentChange :=
         spreadInto (mkDocument (escapeKey k) k (PObject payload) ∅) partition in
       bind (itemAt changes k) (λ item,
         let tag := eTag item in
         if negb (JsString.truthy tag) || bool_decide (tag = Some "*") then
           tryCatch
             (bind getThis (λ self,
                bind (deref (container self) "items") (λ co,
                  request (ItemsUpsert co documentChange) (serveUpsert documentChange))))
             (λ err, throw (errWithNewMessage err "Error upserting document"))
         else if (0 <? String.length (default EmptyString tag))%nat then
           tryCatch
             (bind thisSettings (λ s,
                bind getThis (λ self,
                  let condition := default EmptyString tag in
                  bind (deref (container self) "item") (λ co,
                    request (ItemReplace co (escapeKey k) (partitionKey s) documentChange
                               condition (partitionValue s))
                            (serveReplace (escapeKey k) documentChange condition)))))
             (λ err, throw (errWithNewMessage err "Error replacing document"))
         else error "etag empty"))).
Proof.
  intros Hp.
  apply (Preserves_bind writeFrame); [frame_step writeFrame|intros partition].
  assert (Hclean : payloadWithoutETag
                     (spreadInto (mkDocument (escapeKey k) k (PObject payload) ∅) partition))
    by (by apply spreadInto_payload).
  cbv zeta.
  apply (Preserves_bind writeFrame); [frame_step writeFrame|intros item].
  destruct (negb (JsString.truthy (eTag item)) || bool_decide (eTag item = Some "*")).
  - apply (Preserves_tryCatch writeFrame); [|intros e; frame_step writeFrame].
    apply (Preserves_bind writeFrame); [frame_step writeFrame|intros self].
    apply (Preserves_bind writeFrame); [frame_step writeFrame|intros co].
    apply writeFrame_request; [exact Hclean| |done].
    intros w id r. by apply serveUpsert_documents.
  - destruct (0 <? String.length (default EmptyString (eTag item)))%nat.
    + apply (Preserves_tryCatch writeFrame); [|intros e; frame_step writeFrame].
      apply (Preserves_bind writeFrame); [frame_step writeFrame|intros s].
      apply (Preserves_bind writeFrame); [frame_step writeFrame|intros self].
      apply (Preserves_bind writeFrame); [frame_step writeFrame|intros co].
      apply writeFrame_request; [exact Hclean| |].
      * intros w id r. by apply serveReplace_documents.
      * intros w. apply serveReplace_calls.
    + frame_step writeFrame.
Qed.

Lemma writeFrame_writeKey escapeKey changes k :
  Preserves writeFrame (writeKey escapeKey changes k).
Proof.
  intros m. unfold writeKey.
  set (rest := λ payload : StoreItem, bind formatPartitionKeyValue _).
  (* the copy and the removal of its eTag *)
  assert (Hcopy : ∀ original,
    Preserves writeFrame
      (bind (newItem original) (λ changesCopy,
         bind (updateItem changesCopy (setETag None)) (λ _,
           bind (readItem changesCopy) rest)))).
  { intros original m0. unfold bind at 1 2 3. simpl.
    set (l := fresh (dom (storeItemObjects m0))).
    rewrite alter_insert_eq, lookup_insert_eq. simpl.
    set (m1 := mkMachine _ _ _ _ _).
    transitivity m1.
    - repeat split; auto. intros l0 Hl0. subst m1; simpl.
      apply lookup_insert_ne. intros <-.
      pose proof (is_fresh (dom (storeItemObjects m0))) as Hf.
      apply Hf. by apply elem_of_dom.
    - apply (writeFrame_send escapeKey changes k (setETag None original)). reflexivity. }
  apply (Preserves_bind writeFrame); [frame_step writeFrame|].
  intros original. apply Hcopy.
Qed.

(** A [write] works on copies: every item object that existed before the
    call is unchanged after it (the caller's items keep their [eTag]), and
    every request the call sends and every record it stores carries a payload
    without an [eTag] property. *)
Lemma write_works_on_copies
    (escapeKey : string → string) (changes : option (list (string * loc))) (m : Machine) :
  (∀ l, is_Some (storeItemObjects m !! l) →
        storeItemObjects (write escapeKey changes m).2 !! l = storeItemObjects m !! l) ∧
  (∀ c, c ∈ calls (cosmos (write escapeKey changes m).2) →
        c ∈ calls (cosmos m) ∨ sendsNoETag c) ∧
  (∀ id r, documents (cosmos (write escapeKey changes m).2) !! id = Some r →
           documents (cosmos m) !! id = Some r ∨ payloadWithoutETag (res_document r)).
Proof.
  assert (H : Preserves writeFrame (write escapeKey changes)).
  { unfold write. destruct changes as [changes|]; [|frame_step writeFrame].
    destruct (objectKeys changes) as [|k keys]; [frame_step writeFrame|].
    apply (Preserves_bind writeFrame); [apply writeFrame_ensureContainerExists|intros _].
    apply (Preserves_forEach writeFrame). intros k'.
    apply (Preserves_floating writeFrame);
      [apply writeFrame_unhandled|apply writeFrame_writeKey]. }
  exact (H m).
Qed.

(** ** The callback of [write], step by step *)

Lemma receive_answers {A} c (serve : Cosmos → Completion A * Cosmos) w :
  answers w → receive c serve w = serve (accept c w).
Proof.
  unfold answers, receive, accept. destruct w as [docs v fs cs]; simpl.
  by destruct fs as [|[e|] rest].
Qed.

Lemma itemAt_eval changes k m : itemAt changes k m = (Normal (itemOf changes k m), m).
Proof. unfold itemAt, itemOf. by destruct (property changes k). Qed.

(** Reading [changes[k]] again after the copy gives the same item. *)
Lemma itemOf_afterCopy changes k w m :
  itemOf changes k (afterCopy changes k w m) = itemOf changes k m.
Proof.
  unfold afterCopy, itemOf; simpl. destruct (property changes k) as [l|] eqn:Hp; [|done].
  destruct (decide (fresh (dom (storeItemObjects m)) = l)) as [<-|Hne].
  - rewrite lookup_insert_eq; simpl.
    pose proof (is_fresh (dom (storeItemObjects m))) as Hf.
    apply not_elem_of_dom in Hf. rewrite Hf. reflexivity.
  - by rewrite lookup_insert_ne.
Qed.

Lemma bind_normal {A B} (c : Js A) (k : A → Js B) m a m' :
  c m = (Normal a, m') → bind c k m = k a m'.
Proof. intros H. unfold bind. by rewrite H. Qed.

Lemma bind_throw {A B} (c : Js A) (k : A → Js B) m e m' :
  c m = (Throw e, m') → bind c k m = (Throw e, m').
Proof. intros H. unfold bind. by rewrite H. Qed.

Lemma formatPartitionKeyValue_eval m :
  formatPartitionKeyValue m = (Normal (partitionFields (currentSettings m)), m).
Proof. reflexivity. Qed.

Lemma thisSettings_eval m : thisSettings m = (Normal (currentSettings m), m).
Proof. reflexivity. Qed.

Lemma getThis_eval m : getThis m = (Normal (this m), m).
Proof. reflexivity. Qed.

(** [const changesCopy = {...item}; delete changesCopy.eTag], then reading the
    copy. *)
Lemma copy_eval {B} (original : StoreItem) (rest : StoreItem → Js B) m :
  bind (newItem original) (λ changesCopy,
    bind (updateItem changesCopy (setETag None)) (λ _,
      bind (readItem changesCopy) rest)) m
  = rest (setETag None original)
         (mkMachine (this m) (settingsObjects m)
            (<[fresh (dom (storeItemObjects m)) := setETag None original]>
               (storeItemObjects m))
            (cosmos m) (unhandledRejections m)).
Proof.
  unfold bind, newItem, updateItem, readItem, allocate; simpl.
  by rewrite alter_insert_eq, lookup_insert_eq.
Qed.

(** The callback up to the choice of the branch. *)
Lemma writeKey_prefix escapeKey changes k m :
  writeKey escapeKey changes k m =
    let body := documentChangeOf escapeKey changes k m in
    let tag := eTag (itemOf changes k m) in
    let m1 := afterCopy changes k (cosmos m) m in
    (if unconditional tag then
       tryCatch
         (bind getThis (λ self,
            bind (deref (container self) "items") (λ co,
              request (ItemsUpsert co body) (serveUpsert body))))
         (λ err, throw (errWithNewMessage err "Error upserting document"))
     else if (0 <? String.length (default EmptyString tag))%nat then
       tryCatch
         (bind thisSettings (λ s,
            bind getThis (λ self,
              bind (deref (container self) "item") (λ co,
                request (ItemReplace co (escapeKey k) (partitionKey s) body
                           (default EmptyString tag) (partitionValue s))
                        (serveReplace (escapeKey k) body (default EmptyString tag))))))
         (λ err, throw (errWithNewMessage err "Error replacing document"))
     else error "etag empty") m1.
Proof.
  unfold writeKey.
  rewrite (bind_normal _ _ _ _ _ (itemAt_eval changes k m)).
  rewrite copy_eval.
  match goal with |- context [mkMachine ?a ?b ?c ?d ?e] =>
    change (mkMachine a b c d e) with (afterCopy changes k (cosmos m) m) end.
  rewrite (bind_normal _ _ _ _ _ (formatPartitionKeyValue_eval _)).
  rewrite (bind_normal _ _ _ _ _ (itemAt_eval changes k _)).
  rewrite itemOf_afterCopy. reflexivity.
Qed.

(** The unconditional branch: one upsert of the record, whose failure is
    wrapped. *)
Lemma writeKey_unconditional escapeKey changes k m co :
  container (this m) = Some co →
  unconditional (eTag (itemOf changes k m)) = true →
  writeKey escapeKey changes k m =
    let body := documentChangeOf escapeKey changes k m in
    match receive (ItemsUpsert co body) (serveUpsert body) (cosmos m) with
    | (Normal _, w) => (Normal tt, afterCopy changes k w m)
    | (Throw e, w) =>
        (Throw (errWithNewMessage e "Error upserting document"), afterCopy changes k w m)
    end.
Proof.
  intros Hco Htag. rewrite writeKey_prefix. cbv zeta. rewrite Htag.
  unfold tryCatch, bind, getThis, request; simpl. rewrite Hco; simpl.
  destruct (receive _ _ (cosmos m)) as [[[]|e] w]; reflexivity.
Qed.

(** The conditional branch: one replace under [IfMatch], whose failure is
    wrapped. *)
Lemma writeKey_conditional escapeKey changes k m co tag :
  container (this m) = Some co →
  eTag (itemOf changes k m) = Some tag →
  tag ≠ EmptyString → tag ≠ "*" →
  writeKey escapeKey changes k m =
    let body := documentChangeOf escapeKey changes k m in
    let s := currentSettings m in
    match receive (ItemReplace co (escapeKey k) (partitionKey s) body tag (partitionValue s))
                  (serveReplace (escapeKey k) body tag) (cosmos m) with
    | (Normal _, w) => (Normal tt, afterCopy changes k w m)
    | (Throw e, w) =>
        (Throw (errWithNewMessage e "Error replacing document"), afterCopy changes k w m)
    end.
Proof.
  intros Hco Htag Hne Hstar. rewrite writeKey_prefix. cbv zeta. rewrite Htag.
  assert (Hu : unconditional (Some tag) = false).
  { unfold unconditional; simpl. destruct tag; [done|simpl].
    apply bool_decide_eq_false. congruence. }
  rewrite Hu. cbn [default from_option id].
  assert (Hl : (0 <? String.length tag)%nat = true) by (by destruct tag).
  rewrite Hl.
  unfold tryCatch, bind, thisSettings, getThis, request; simpl. rewrite Hco; simpl.
  unfold currentSettings.
  destruct (receive _ _ (cosmos m)) as [[[]|e] w]; reflexivity.
Qed.

(** ** Wrapped errors *)

Lemma append_assoc (a b c : string) : (a ++ b) ++ c = a ++ (b ++ c).
Proof.
  induction a as [|ch a IH]; [done|].
  change (String ch ((a ++ b) ++ c) = String ch (a ++ b ++ c)). by rewrite IH.
Qed.

Lemma startsWith_append (p s : string) : JsString.startsWith p (p ++ s) = true.
Proof.
  induction p as [|ch p IH]; [done|].
  change (JsString.startsWith (String ch p) (String ch (p ++ s)) = true).
  simpl. by rewrite Ascii.eqb_refl.
Qed.

(** [errWithNewMessage] wraps: the message gets the prefix and the cause is
    kept in [original]. *)
Lemma errWithNewMessage_wraps (err : Thrown) (message : string) :
  wraps message err (errWithNewMessage err message).
Proof.
  assert (Hp : ∀ x, JsString.startsWith (message ++ ": ") (message ++ ": " ++ x) = true).
  { intros x. rewrite <- append_assoc. apply startsWith_append. }
  destruct err as [m c o|c [b|]]; cbn [wraps errWithNewMessage]; split;
    first [apply Hp|reflexivity].
Qed.

(** ** Concurrency policy of [write] *)

(** X19.  The callback of [write] for one key, on an instance that holds its
    container handle and a service that answers the request.  An item without
    [eTag], or with the wildcard, is sent as one unconditional upsert, which
    succeeds and stores the record whatever the container held.  An item with
    a non-empty [eTag] other than the wildcard is sent as one replace under
    [IfMatch] with that tag: when the stored record holds another version the
    callback fails with the wrapped precondition failure and the records of
    the container are unchanged; when it holds that version the record is
    replaced. *)
Theorem write_concurrency_policy
    (escapeKey : string → string) (changes : list (string * loc)) (k : string)
    (m : Machine) (co : Container) :
  container (this m) = Some co →
  answers (cosmos m) →
  let item := itemOf changes k m in
  let body := documentChangeOf escapeKey changes k m in
  let s := currentSettings m in
  let outcome := (writeKey escapeKey changes k m).1 in
  let after := cosmos (writeKey escapeKey changes k m).2 in
  (eTag item = None ∨ eTag item = Some "*" →
     outcome = Normal tt ∧
     calls after = ItemsUpsert co body :: calls (cosmos m) ∧
     documents after =
       <[doc_id body := mkResource body (newETag (versions (cosmos m)))]>
         (documents (cosmos m))) ∧
  (∀ tag, eTag item = Some tag → tag ≠ EmptyString → tag ≠ "*" →
     calls after =
       ItemReplace co (escapeKey k) (partitionKey s) body tag (partitionValue s)
         :: calls (cosmos m) ∧
     ∀ stored, documents (cosmos m) !! escapeKey k = Some stored →
       (res_etag stored ≠ tag →
          (∃ e, outcome = Throw e ∧ ConcurrencyConflictError e) ∧
          documents after = documents (cosmos m)) ∧
       (res_etag stored = tag →
          outcome = Normal tt ∧
          documents after =
            <[escapeKey k := mkResource body (newETag (versions (cosmos m)))]>
              (documents (cosmos m)))).
Proof.
  intros Hco Hans item body s outcome after. split.
  - intros Htag.
    assert (Hu : unconditional (eTag item) = true) by (by destruct Htag as [->| ->]).
    subst outcome after.
    rewrite (writeKey_unconditional escapeKey changes k m co Hco Hu). cbv zeta.
    rewrite receive_answers by done. by simpl.
  - intros tag Htag Hne Hstar. subst outcome after.
    rewrite (writeKey_conditional escapeKey changes k m co tag Hco Htag Hne Hstar). cbv zeta.
    rewrite receive_answers by done. unfold serveReplace; simpl. split.
    + destruct (documents (cosmos m) !! escapeKey k) as [stored|]; [|done].
      by destruct (decide (res_etag stored = tag)).
    + intros stored Hstored. rewrite Hstored. split; intros Hv.
      * destruct (decide (res_etag stored = tag)) as [|_]; [done|]. simpl. split; [|done].
        eexists; split; [reflexivity|]. apply errWithNewMessage_wraps.
      * destruct (decide (res_etag stored = tag)) as [_|]; [|done]. by simpl.
Qed.

(** ** Provisioning *)

(** With both handles in place the provisioning step does nothing. *)
Lemma ensureContainerExists_provisioned m db co :
  database (this m) = Some db → container (this m) = Some co →
  ensureContainerExists m = (Normal tt, m).
Proof.
  intros Hdb Hco. unfold ensureContainerExists, bind, getThis; simpl.
  rewrite Hdb; simpl. by rewrite Hco.
Qed.

Lemma answersAll_answers w : answersAll w → answers w.
Proof.
  unfold answersAll, answers. destruct (faults w) as [|[e|] rest]; [done| |done].
  intros H. by apply Forall_cons in H as [? _].
Qed.

Lemma answersAll_accept c w : answersAll w → answersAll (accept c w).
Proof.
  unfold answersAll, accept; simpl. destruct (faults w) as [|f rest]; [done|].
  intros H. by apply Forall_cons in H as [_ ?].
Qed.

(** When the service answers, the provisioning step succeeds from any state
    of the handles and leaves both in place. *)
Lemma ensureContainerExists_answersAll m :
  answersAll (cosmos m) →
  ∃ m', ensureContainerExists m = (Normal tt, m') ∧
        is_Some (database (this m')) ∧ is_Some (container (this m')) ∧
        provisioningFrame m m' ∧ answersAll (cosmos m').
Proof.
  intros Hall. unfold ensureContainerExists.
  rewrite (bind_normal _ _ _ _ _ (getThis_eval m)).
  assert (Hdb : ∃ m1, match database (this m) with
                      | None => getOrCreateDatabase
                      | Some _ => ret tt
                      end m = (Normal tt, m1) ∧
                      is_Some (database (this m1)) ∧ container (this m1) = container (this m) ∧
                      provisioningFrame m m1 ∧ answersAll (cosmos m1)).
  { destruct (database (this m)) as [db|] eqn:Hd.
    - exists m. unfold provisioningFrame. rewrite Hd. eauto 10.
    - unfold getOrCreateDatabase, tryCatch, bind, thisSettings, getThis, request; simpl.
      rewrite receive_answers by (by apply answersAll_answers). simpl.
      eexists; split; [reflexivity|]. simpl. unfold provisioningFrame; simpl.
      repeat split; eauto. by apply answersAll_accept. }
  destruct Hdb as (m1 & Hrun & [db Hdb] & Hco & Hframe & Hall1).
  rewrite (bind_normal _ _ _ _ _ Hrun).
  rewrite (bind_normal _ _ _ _ _ (getThis_eval m1)).
  destruct (container (this m1)) as [co|] eqn:Hc.
  - exists m1. rewrite Hdb, Hc. eauto 10.
  - unfold getOrCreateContainer, tryCatch, bind, thisSettings, getThis, request; simpl.
    rewrite Hdb; simpl.
    rewrite receive_answers by (by apply answersAll_answers). simpl.
    eexists; split; [reflexivity|]. simpl.
    destruct Hframe as (? & ? & ? & ? & ? & ?). unfold provisioningFrame; simpl.
    repeat split; eauto. by apply answersAll_accept.
Qed.

(** ** Propagation of failures *)

Lemma forEach_floating_resolves {A} (f : A → Js unit) (l : list A) m :
  (forEach (λ a, floating (f a)) l m).1 = Normal tt.
Proof.
  revert m. induction l as [|a l IH]; intros m; simpl; [done|].
  unfold bind, floating. destruct (f a m) as [[[]|e] m1]; simpl; apply IH.
Qed.

(** The outcome of [write] is decided by the provisioning step alone. *)
Lemma write_outcome escapeKey changes m :
  (write escapeKey changes m).1 = Normal tt ∨
  (write escapeKey changes m).1 = (ensureContainerExists m).1.
Proof.
  unfold write. destruct changes as [changes|]; [|by left].
  destruct (objectKeys changes) as [|k keys]; [by left|].
  unfold bind. destruct (ensureContainerExists m) as [[[]|e] m1]; simpl.
  - left. apply (forEach_floating_resolves (writeKey escapeKey changes) (k :: keys)).
  - by right.
Qed.

Lemma unconditional_false tag :
  unconditional tag = false →
  (0 <? String.length (default EmptyString tag))%nat = true.
Proof.
  unfold unconditional. destruct tag as [[|c s]|]; simpl; try done.
Qed.

(** The last branch of the callback of [write] is never taken. *)
Lemma writeKey_never_etag_empty escapeKey changes k m :
  (writeKey escapeKey changes k m).1 ≠ Throw InvalidVersionTagError.
Proof.
  assert (Hw : ∀ e msg, JsString.startsWith (msg ++ ": ") "etag empty" = false →
                        errWithNewMessage e msg ≠ InvalidVersionTagError).
  { intros e msg Hs Heq. pose proof (errWithNewMessage_wraps e msg) as Hwr.
    rewrite Heq in Hwr. destruct Hwr as [Hwr _]. congruence. }
  rewrite writeKey_prefix. cbv zeta.
  destruct (unconditional (eTag (itemOf changes k m))) eqn:Hu.
  - unfold tryCatch.
    match goal with |- context [bind ?c ?k ?m1] => destruct (bind c k m1) as [[[]|e] m2] end;
      simpl; [done|].
    intros [=Heq]. by apply Hw in Heq.
  - rewrite (unconditional_false _ Hu). unfold tryCatch.
    match goal with |- context [bind ?c ?k ?m1] => destruct (bind c k m1) as [[[]|e] m2] end;
      simpl; [done|].
    intros [=Heq]. by apply Hw in Heq.
Qed.

(** C2, on the code as it is.  No run of the callback of [write] ends with
    the error of the empty version tag; an item whose [eTag] is the empty
    string is written like one without [eTag]: [write] resolves, nothing is
    rejected, and the single request is an upsert that stores the record. *)
Theorem empty_eTag_is_upserted (escapeKey : string → string) :
  (∀ changes k m, (writeKey escapeKey changes k m).1 ≠ Throw InvalidVersionTagError) ∧
  let m := sampleMachine provisionedInstance {[ 1%positive := countItem (Some EmptyString) ]}
             (mkCosmos ∅ 0 [] []) in
  let r := write escapeKey (Some [("k", 1%positive)]) m in
  r.1 = Normal tt ∧
  unhandledRejections r.2 = [] ∧
  calls (cosmos r.2)
    = [ItemsUpsert sampleContainer
         (mkDocument (escapeKey "k") "k" (PObject (countItem None)) ∅)] ∧
  documents (cosmos r.2) = {[ escapeKey "k" := countResource escapeKey "k" "etag-0" ]}.
Proof.
  split; [intros; apply writeKey_never_etag_empty|].
  cbv zeta. repeat split.
Qed.

(** C1, on the code as it is.  The version tag selects the request as the
    policy says ([write_concurrency_policy]), but the failure of the
    conditional replace stays with the callback.  The caller holds an item read
    at version [etag-3] while the container holds version [etag-7]: [write]
    sends the replace under [IfMatch] with [etag-3], the records are
    unchanged, and [write] resolves; the conflict error is the rejection of a
    promise nobody holds. *)
Theorem stale_write_resolves :
  let r := write plainKey (Some [("keyUpdate", 1%positive)]) staleMachine in
  r.1 = Normal tt ∧
  calls (cosmos r.2)
    = [ItemReplace sampleContainer "keyUpdate" None
         (mkDocument "keyUpdate" "keyUpdate" (PObject (countItem None)) ∅)
         "etag-3" (Some EmptyString)] ∧
  documents (cosmos r.2) = documents (cosmos staleMachine) ∧
  unhandledRejections r.2
    = [errWithNewMessage preconditionFailed "Error replacing document"] ∧
  ConcurrencyConflictError (errWithNewMessage preconditionFailed "Error replacing document").
Proof.
  cbv zeta. split_and!; try reflexivity. apply errWithNewMessage_wraps.
Qed.

(** C3, on the code as it is.  The promise of [write] settles as the
    provisioning step does, whatever happens to the keys; when the upsert of a
    key fails, [write] still resolves, the wrapped error is the rejection of a
    promise nobody holds, and nothing is stored. *)
Theorem write_drops_per_key_failure (escapeKey : string → string) :
  (∀ changes m, (write escapeKey changes m).1 = Normal tt ∨
                (write escapeKey changes m).1 = (ensureContainerExists m).1) ∧
  let m := sampleMachine provisionedInstance {[ 1%positive := countItem None ]}
             (mkCosmos ∅ 0 [Some serviceUnavailable] []) in
  let r := write escapeKey (Some [("k", 1%positive)]) m in
  r.1 = Normal tt ∧
  unhandledRejections r.2
    = [errWithNewMessage serviceUnavailable "Error upserting document"] ∧
  documents (cosmos r.2) = ∅.
Proof.
  split; [intros; apply write_outcome|].
  cbv zeta. repeat split.
Qed.

(** C7, on the code as it is.  When the creation of the database is answered
    with "already exists", [getOrCreateDatabase] lets it pass but the handle
    stays [null], and the creation of the container fails on it: [read]
    rejects, and the next operation asks for the database again.  When the
    creation of the container is answered so, the provisioning step succeeds
    without handle, [read] fails on the handle, and the next operation asks
    for the container again. *)
Theorem conflict_on_creation_is_not_success (escapeKey : string → string) :
  let m := sampleMachine newInstance ∅ (mkCosmos ∅ 0 [Some conflict] []) in
  let first := read escapeKey (Some ["k"]) m in
  let second := read escapeKey (Some ["k"]) first.2 in
  let m' := sampleMachine newInstance ∅ (mkCosmos ∅ 0 [None; Some conflict] []) in
  let first' := read escapeKey (Some ["k"]) m' in
  let second' := read escapeKey (Some ["k"]) first'.2 in
  (first.1 = Throw (errWithNewMessage (nullDereference "containers")
                      "Error initializing container") ∧
   database (this first.2) = None ∧
   calls (cosmos first.2) = [DatabasesCreateIfNotExists (Some "test-db") None] ∧
   filter isCreateDatabase (calls (cosmos second.2))
     = [DatabasesCreateIfNotExists (Some "test-db") None;
        DatabasesCreateIfNotExists (Some "test-db") None]) ∧
  ((ensureContainerExists m').1 = Normal tt ∧
   first'.1 = Throw (errWithNewMessage (nullDereference "items")
                       "Error reading from container") ∧
   container (this first'.2) = None ∧
   filter isCreateContainer (calls (cosmos second'.2))
     = [ContainersCreateIfNotExists sampleDatabase (Some "bot-storage") None None;
        ContainersCreateIfNotExists sampleDatabase (Some "bot-storage") None None]).
Proof. cbv zeta. repeat split. Qed.

(** ** Delete *)

(** The callback of [delete] for one key: when the point delete succeeds,
    or fails with a response of code 404, the callback succeeds; every other
    failure of the point delete makes it fail with that failure wrapped as
    the error of [delete].  The callback leaves the machine as the point
    delete left it. *)
Lemma delete_absorbs_not_found_and_wraps_the_rest
    (escapeKey : string → string) (k : string) (m : Machine) :
  (deleteKey escapeKey k m).2 = (pointDelete escapeKey k m).2 ∧
  match (pointDelete escapeKey k m).1 with
  | Normal _ => (deleteKey escapeKey k m).1 = Normal tt
  | Throw err =>
      if codeIs err 404
      then (deleteKey escapeKey k m).1 = Normal tt
      else ∃ e, (deleteKey escapeKey k m).1 = Throw e ∧ StorageDeleteError err e
  end.
Proof.
  unfold deleteKey, tryCatch.
  destruct (pointDelete escapeKey k m) as [[[]|err] m1]; simpl; [done|].
  destruct (codeIs err 404); simpl; [done|].
  split; [done|]. eexists; split; [reflexivity|]. apply errWithNewMessage_wraps.
Qed.

(** The service's answer for a record that is not there is a response of
    code 404, so deleting an absent key succeeds. *)
Lemma deleteKey_absent escapeKey k m co :
  container (this m) = Some co →
  answers (cosmos m) →
  documents (cosmos m) !! escapeKey k = None →
  (pointDelete escapeKey k m).1 = Throw notFound ∧
  (deleteKey escapeKey k m).1 = Normal tt ∧
  documents (cosmos (deleteKey escapeKey k m).2) = documents (cosmos m).
Proof.
  intros Hco Hans Habs.
  unfold deleteKey, tryCatch, pointDelete, bind, thisSettings, getThis, request; simpl.
  rewrite Hco; simpl. rewrite receive_answers by done.
  unfold serveDelete; simpl. rewrite Habs. by simpl.
Qed.

(** A record that is there is removed. *)
Lemma deleteKey_present escapeKey k m co r :
  container (this m) = Some co →
  answers (cosmos m) →
  documents (cosmos m) !! escapeKey k = Some r →
  (deleteKey escapeKey k m).1 = Normal tt ∧
  documents (cosmos (deleteKey escapeKey k m).2) !! escapeKey k = None.
Proof.
  intros Hco Hans Hr.
  unfold deleteKey, tryCatch, pointDelete, bind, thisSettings, getThis, request; simpl.
  rewrite Hco; simpl. rewrite receive_answers by done.
  unfold serveDelete; simpl. rewrite Hr. simpl. split; [done|apply lookup_delete_eq].
Qed.

(** The promise of [delete], like that of [write], settles as the
    provisioning step does. *)
Lemma delete_outcome escapeKey keys m :
  (delete escapeKey keys m).1 = Normal tt ∨
  (delete escapeKey keys m).1 = (ensureContainerExists m).1.
Proof.
  unfold delete. destruct keys as [[|k keys]|]; [by left| |by left].
  unfold bind. destruct (ensureContainerExists m) as [[[]|e] m1]; simpl.
  - left. apply (forEach_floating_resolves (deleteKey escapeKey) (k :: keys)).
  - by right.
Qed.

(** C8, on the code as it is.  The callback of a key absorbs "not found" and
    wraps every other failure ([delete_absorbs_not_found_and_wraps_the_rest]),
    but [await keys.map(...)] awaits an array, not its promises: the promise
    of [delete] settles as the provisioning step does, whatever happens to
    the keys.  When the point delete of a key is refused with a 503, [delete]
    resolves as it does for a 404; the wrapped error is the rejection of a
    promise nobody holds, and the caller cannot tell the two apart. *)
Theorem delete_drops_per_key_failure (escapeKey : string → string) :
  (∀ keys m, (delete escapeKey keys m).1 = Normal tt ∨
             (delete escapeKey keys m).1 = (ensureContainerExists m).1) ∧
  let refused := delete escapeKey (Some ["k"])
                   (sampleMachine provisionedInstance ∅
                      (mkCosmos ∅ 0 [Some serviceUnavailable] [])) in
  let absent := delete escapeKey (Some ["k"])
                  (sampleMachine provisionedInstance ∅
                     (mkCosmos ∅ 0 [Some notFound] [])) in
  refused.1 = Normal tt ∧
  unhandledRejections refused.2
    = [errWithNewMessage serviceUnavailable "Unable to delete document"] ∧
  StorageDeleteError serviceUnavailable
    (errWithNewMessage serviceUnavailable "Unable to delete document") ∧
  calls (cosmos refused.2)
    = [ItemDelete sampleContainer (escapeKey "k") None (Some EmptyString)] ∧
  absent.1 = refused.1 ∧
  unhandledRejections absent.2 = [] ∧
  calls (cosmos absent.2) = calls (cosmos refused.2).
Proof.
  split; [intros; apply delete_outcome|].
  cbv zeta. split_and!; try reflexivity. apply errWithNewMessage_wraps.
Qed.

(** ** Read *)






(** ** The records [write] stores are well formed *)

Lemma spreadInto_apart base s :
  partitionApart s →
  doc_id (spreadInto base (partitionFields s)) = doc_id base ∧
  doc_realId (spreadInto base (partitionFields s)) = doc_realId base ∧
  doc_document (spreadInto base (partitionFields s)) = doc_document base.
Proof.
  intros (H1 & H2 & H3). unfold spreadInto; simpl. by rewrite H1, H2, H3.
Qed.

(** With a partition field apart from the envelope, the callback of [write]
    keeps the container well formed, whatever the service answers. *)
Lemma writeKey_keeps_wellFormed escapeKey changes k m :
  partitionApart (currentSettings m) →
  keepsWellFormed escapeKey m (writeKey escapeKey changes k m).2.
Proof.
  intros Hapart. rewrite writeKey_prefix. cbv zeta.
  set (body := documentChangeOf escapeKey changes k m).
  assert (Hshape : doc_id body = escapeKey k ∧ doc_realId body = k ∧
                   doc_document body = PObject (setETag None (itemOf changes k m))).
  { subst body. unfold documentChangeOf. by apply spreadInto_apart. }
  destruct Hshape as (Hid & Hreal & Hdoc). clearbody body.
  assert (Hbody : ∀ docs v, wellFormed escapeKey docs →
            wellFormed escapeKey (<[escapeKey k := mkResource body v]> docs)).
  { intros docs v Hwf. apply map_Forall_insert_2; [|done]. simpl.
    rewrite Hid, Hreal, Hdoc. eauto. }
  unfold keepsWellFormed.
  destruct (unconditional (eTag (itemOf changes k m))).
  - unfold tryCatch, bind, getThis, deref, request, receive, serveUpsert, store; simpl.
    destruct (container (this m)) as [co|]; simpl; [|by split_and!].
    destruct (faults (cosmos m)) as [|[e|] rest]; simpl; split_and!; try done;
      rewrite Hid; apply Hbody.
  - destruct (0 <? String.length (default EmptyString (eTag (itemOf changes k m))))%nat;
      [|by split_and!].
    unfold tryCatch, bind, thisSettings, getThis, deref, request, receive, serveReplace; simpl.
    destruct (container (this m)) as [co|]; simpl; [|by split_and!].
    destruct (faults (cosmos m)) as [|[e|] rest]; simpl;
      try (by split_and!);
      (destruct (documents (cosmos m) !! escapeKey k) as [old|]; simpl; [|by split_and!];
       destruct (decide (res_etag old = _)); simpl; split_and!; try done; apply Hbody).
Qed.

Lemma ensureContainerExists_keeps_documents m :
  settings (this (ensureContainerExists m).2) = settings (this m) ∧
  settingsObjects (ensureContainerExists m).2 = settingsObjects m ∧
  documents (cosmos (ensureContainerExists m).2) = documents (cosmos m).
Proof.
  assert (Hdb : settings (this (match database (this m) with
                                | None => getOrCreateDatabase
                                | Some _ => ret tt
                                end m).2) = settings (this m) ∧
                settingsObjects (match database (this m) with
                                 | None => getOrCreateDatabase
                                 | Some _ => ret tt
                                 end m).2 = settingsObjects m ∧
                documents (cosmos (match database (this m) with
                                   | None => getOrCreateDatabase
                                   | Some _ => ret tt
                                   end m).2) = documents (cosmos m)).
  { destruct (database (this m)); [done|].
    unfold getOrCreateDatabase, tryCatch, bind, thisSettings, getThis, request, receive; simpl.
    destruct (faults (cosmos m)) as [|[e|] rest]; simpl; try done.
    by destruct (negb (codeIs e 409)). }
  assert (Hco : ∀ m1 r m2,
            match container (this m1) with
            | None => getOrCreateContainer
            | Some _ => ret tt
            end m1 = (r, m2) →
            settings (this m2) = settings (this m1) ∧
            settingsObjects m2 = settingsObjects m1 ∧
            documents (cosmos m2) = documents (cosmos m1)).
  { intros m1 r m2. destruct (container (this m1)); [by intros [= _ <-]|].
    unfold getOrCreateContainer, tryCatch, bind, thisSettings, getThis, deref, request, receive;
      simpl.
    destruct (database (this m1)) as [db|]; simpl; [|by intros [= _ <-]].
    destruct (faults (cosmos m1)) as [|[e|] rest]; simpl; try (by intros [= _ <-]).
    destruct (codeIs e 400); [by intros [= _ <-]|].
    by destruct (negb (codeIs e 409)); intros [= _ <-]. }
  destruct (ensureContainerExists m) as [r m'] eqn:Hrun. simpl.
  unfold ensureContainerExists in Hrun.
  rewrite (bind_normal _ _ _ _ _ (getThis_eval m)) in Hrun.
  unfold bind at 1 in Hrun.
  destruct (match database (this m) with
            | None => getOrCreateDatabase
            | Some _ => ret tt
            end m) as [[[]|e] m1] eqn:Hfirst.
  - rewrite (bind_normal _ _ _ _ _ (getThis_eval m1)) in Hrun.
    destruct Hdb as (? & ? & ?). destruct (Hco _ _ _ Hrun) as (? & ? & ?).
    simpl in *. split_and!; congruence.
  - injection Hrun as _ <-. exact Hdb.
Qed.

Lemma forEach_writeKey_keeps_wellFormed escapeKey changes (l : list string) :
  ∀ m, partitionApart (currentSettings m) →
       wellFormed escapeKey (documents (cosmos m)) →
       wellFormed escapeKey
         (documents (cosmos (forEach (λ k, floating (writeKey escapeKey changes k)) l m).2)).
Proof.
  induction l as [|k l IH]; intros m Hapart Hwf; [exact Hwf|].
  cbn [forEach]. unfold bind at 1, floating.
  pose proof (writeKey_keeps_wellFormed escapeKey changes k m Hapart) as (Ht & Hso & Hk).
  destruct (writeKey escapeKey changes k m) as [[[]|e] m2]; simpl in Ht, Hso, Hk |- *;
    (apply IH; [unfold currentSettings in *; simpl; by rewrite Ht, Hso|by apply Hk]).
Qed.

(** X18.  A container written only through [write], by an instance whose partition
    field is apart from the envelope, stays well formed: well-formedness is
    an invariant of the class. *)
Lemma write_keeps_wellFormed escapeKey changes m :
  partitionApart (currentSettings m) →
  wellFormed escapeKey (documents (cosmos m)) →
  wellFormed escapeKey (documents (cosmos (write escapeKey changes m).2)).
Proof.
  intros Hapart Hwf. unfold write. destruct changes as [changes|]; [|done].
  destruct (objectKeys changes) as [|k0 keys] eqn:Hkeys; [done|].
  pose proof (ensureContainerExists_keeps_documents m) as (Hs & Hso & Hd).
  unfold bind at 1.
  destruct (ensureContainerExists m) as [[[]|e] m1]; cbn [fst snd] in *; [|by rewrite Hd].
  apply forEach_writeKey_keeps_wellFormed.
  - unfold currentSettings. by rewrite Hs, Hso.
  - by rewrite Hd.
Qed.

(** ** Further facts about the constructor and the operations *)

(** The copy is shallow: the instance holds the caller's request-options
    objects themselves. *)
Lemma constructor_shares_request_options policy configure heap caller s instance heap' :
  heap !! caller = Some s →
  constructor policy (Some caller) configure heap = (Normal instance, heap') →
  databaseCreationRequestOption instance = databaseCreationRequestOptions s ∧
  documentCollectionCreationRequestOption instance = documentCollectionRequestOptions s.
Proof.
  intros Hs Hrun. destruct (validated s) eqn:Hv.
  - rewrite (constructor_validated _ _ _ _ _ Hs Hv) in Hrun. by injection Hrun as <- _.
  - destruct (constructor_rejected policy configure _ _ _ Hs Hv) as [e He]. congruence.
Qed.

(** The provisioning step comes first: when it fails, the operation fails
    with its error in the state it left, and no request about data is sent. *)
Lemma provisioning_failure_is_the_outcome escapeKey m e m' keys changes :
  keys ≠ [] → changes ≠ [] →
  ensureContainerExists m = (Throw e, m') →
  read escapeKey (Some keys) m = (Throw e, m') ∧
  write escapeKey (Some changes) m = (Throw e, m') ∧
  delete escapeKey (Some keys) m = (Throw e, m').
Proof.
  intros Hkeys Hchanges Hens.
  destruct keys as [|k keys]; [done|]. destruct changes as [|[k' l] changes]; [done|].
  unfold read, write, delete; simpl.
  rewrite (bind_normal _ _ _ _ _ (formatPartitionKeyValue_eval m)).
  by rewrite !(bind_throw _ _ _ _ _ Hens).
Qed.

(** The first test of the repository that writes: a key is created and read
    back with its value and the version the service gave it. *)
Example key_creation :
  let m := sampleMachine newInstance {[ 1%positive := countItem None ]} (mkCosmos ∅ 0 [] []) in
  let written := write plainKey (Some [("keyCreate", 1%positive)]) m in
  let back := read plainKey (Some ["keyCreate"]) written.2 in
  written.1 = Normal tt ∧
  ∃ l, back.1 = Normal {[ "keyCreate" := l ]} ∧
       storeItemObjects back.2 !! l = Some (countItem (Some "etag-0")).
Proof. cbv zeta. split; [reflexivity|]. eexists. split; reflexivity. Qed.

(** ** Sample runs *)

Lemma write_concurrency_policy_witness :
  container (this staleMachine) = Some sampleContainer ∧
  answers (cosmos staleMachine) ∧
  (∃ e, (writeKey plainKey [("keyUpdate", 1%positive)] "keyUpdate" staleMachine).1 = Throw e ∧
        ConcurrencyConflictError e) ∧
  documents (cosmos (writeKey plainKey [("keyUpdate", 1%positive)] "keyUpdate" staleMachine).2)
    = documents (cosmos staleMachine).
Proof.
  split; [reflexivity|]. split; [exact I|].
  destruct (write_concurrency_policy plainKey [("keyUpdate", 1%positive)] "keyUpdate"
              staleMachine sampleContainer eq_refl I) as [_ Hcond].
  destruct (Hcond "etag-3") as [_ Hstored];
    [reflexivity|discriminate|discriminate|].
  destruct (Hstored (countResource plainKey "keyUpdate" "etag-7")) as [Hstale _];
    [reflexivity|].
  apply Hstale. discriminate.
Defined.



(** * Further properties of the class *)

(** ** The constructor: required settings *)

Lemma trimStart_allWhiteSpace s :
  allWhiteSpace (JsString.trimStart s) = allWhiteSpace s.
Proof.
  induction s as [|c s IH]; [done|]. simpl.
  destruct (JsString.isWhiteSpace c) eqn:Hc; simpl; [exact IH|by rewrite Hc].
Qed.

Lemma trimEnd_isEmpty s : JsString.isEmpty (JsString.trimEnd s) = allWhiteSpace s.
Proof.
  induction s as [|c s IH]; [done|]. simpl.
  destruct (JsString.trimEnd s) as [|c' r]; simpl in *.
  - rewrite <- IH, andb_true_r. by destruct (JsString.isWhiteSpace c).
  - rewrite <- IH. by rewrite andb_false_r.
Qed.

(** The test [!v || v.trim() === ''] fails exactly on a setting with
    content. *)
Lemma missing_hasContent v : JsString.missing v = false ↔ hasContent v.
Proof.
  unfold JsString.missing, hasContent, JsString.trim. destruct v as [s|].
  - rewrite trimEnd_isEmpty, trimStart_allWhiteSpace. split.
    + intros H. exists s. split; [done|]. by apply orb_false_elim in H as [_ ?].
    + intros (s' & [= <-] & H). rewrite H, orb_false_r. by destruct s.
  - split; [done|]. by intros (s' & ? & _).
Qed.

Lemma missing_not_hasContent v : JsString.missing v = true ↔ ¬ hasContent v.
Proof.
  rewrite <- missing_hasContent. by destruct (JsString.missing v).
Qed.

(** X1.  The constructor asks for the four required settings in turn: the first
    that is absent, empty or made of white space decides the error, and the
    heap is left as it was; with all four in place an instance is returned
    that has no handle yet, whatever the partition key. *)
Theorem constructor_requires_settings
    (policy : ConnectionPolicy) (configure : option (ConnectionPolicy → ConnectionPolicy))
    (heap : gmap loc CosmosDbStorageSettings) (caller : loc) (s : CosmosDbStorageSettings) :
  heap !! caller = Some s →
  let run := constructor policy (Some caller) configure heap in
  (¬ hasContent (serviceEndpoint s) →
     run = (Throw (JsError "The settings service Endpoint is required." None NoCause), heap)) ∧
  (hasContent (serviceEndpoint s) → ¬ hasContent (authKey s) →
     run = (Throw (JsError "The settings authKey is required." None NoCause), heap)) ∧
  (hasContent (serviceEndpoint s) → hasContent (authKey s) → ¬ hasContent (databaseId s) →
     run = (Throw (JsError "The settings dataBase ID is required." None NoCause), heap)) ∧
  (hasContent (serviceEndpoint s) → hasContent (authKey s) → hasContent (databaseId s) →
   ¬ hasContent (collectionId s) →
     run = (Throw (JsError "The settings collection ID is required." None NoCause), heap)) ∧
  (hasContent (serviceEndpoint s) → hasContent (authKey s) → hasContent (databaseId s) →
   hasContent (collectionId s) →
     ∃ instance, run = (Normal instance, <[settings instance := normalized s]> heap) ∧
                 heap !! settings instance = None ∧
                 database instance = None ∧ container instance = None).
Proof.
  intros Hs run. subst run.
  split_and!.
  - intros H1%missing_not_hasContent. unfold constructor. rewrite Hs; simpl. by rewrite H1.
  - intros H1%missing_hasContent H2%missing_not_hasContent.
    unfold constructor. rewrite Hs; simpl. by rewrite H1, H2.
  - intros H1%missing_hasContent H2%missing_hasContent H3%missing_not_hasContent.
    unfold constructor. rewrite Hs; simpl. by rewrite H1, H2, H3.
  - intros H1%missing_hasContent H2%missing_hasContent H3%missing_hasContent
           H4%missing_not_hasContent.
    unfold constructor. rewrite Hs; simpl. by rewrite H1, H2, H3, H4.
  - intros H1%missing_hasContent H2%missing_hasContent H3%missing_hasContent
           H4%missing_hasContent.
    assert (Hv : validated s = true) by (unfold validated; by rewrite H1, H2, H3, H4).
    rewrite (constructor_validated _ _ _ _ _ Hs Hv).
    eexists (mkStorage (fresh (dom heap)) _ None None _ _). split; [reflexivity|].
    simpl. split_and!; try done. apply not_elem_of_dom, is_fresh.
Qed.

(** ** The constructor: normalization *)

Lemma normalized_idempotent s : normalized (normalized s) = normalized s.
Proof.
  destruct s as [e a d c pk pv o1 o2]. unfold normalized; simpl.
  f_equal; [|by destruct pv as [[|ch v]|]].
  destruct pk as [[|ch k]|]; simpl; try reflexivity.
  destruct (decide (Some ch ≠ Some "/"%char)) as [Hc|Hc]; simpl.
  - by destruct (decide (Some "/"%char ≠ Some "/"%char)).
  - by destruct (decide (Some ch ≠ Some "/"%char)).
Qed.

Lemma validated_normalized s : validated (normalized s) = validated s.
Proof. by destruct s. Qed.

(** X2.  The settings of an instance are a fixed point of the constructor: an
    instance built from the settings object of another instance holds the
    same settings (the separator is not added twice). *)
Theorem constructor_twice_keeps_settings
    (policy : ConnectionPolicy) (configure : option (ConnectionPolicy → ConnectionPolicy))
    (heap : gmap loc CosmosDbStorageSettings) (caller : loc) (s : CosmosDbStorageSettings) :
  heap !! caller = Some s →
  validated s = true →
  ∃ first heap1 second heap2,
    constructor policy (Some caller) configure heap = (Normal first, heap1) ∧
    constructor policy (Some (settings first)) configure heap1 = (Normal second, heap2) ∧
    settings second ≠ settings first ∧
    heap2 !! settings second = heap1 !! settings first.
Proof.
  intros Hs Hv.
  eexists _, _, _, _. split; [by apply constructor_validated|].
  cbn [settings].
  assert (Hown : <[fresh (dom heap) := normalized s]> heap !! fresh (dom heap)
                 = Some (normalized s)) by apply lookup_insert_eq.
  split; [apply (constructor_validated _ _ _ _ _ Hown); by rewrite validated_normalized|].
  cbn [settings]. split.
  - intros Heq. pose proof (is_fresh (dom (<[fresh (dom heap) := normalized s]> heap))) as Hf.
    rewrite Heq in Hf. apply Hf. apply elem_of_dom. eauto.
  - by rewrite !lookup_insert_eq, normalized_idempotent.
Qed.

Lemma partitionFields_normalized s :
  partitionFields (normalized s) =
    match partitionKey s with
    | Some k =>
        if JsString.isEmpty k then ∅
        else {[ stripSeparator k := JsString.orElse (partitionValue s) EmptyString ]}
    | None => ∅
    end.
Proof.
  destruct s as [e a d c pk pv o1 o2]. unfold partitionFields, normalized; simpl.
  destruct pk as [[|ch k]|]; simpl; try reflexivity.
  unfold stripSeparator; simpl.
  destruct (decide (Some ch ≠ Some "/"%char)) as [Hc|Hc]; simpl.
  - destruct (decide (Some ch = Some "/"%char)); [done|]. by destruct pv as [[|ch' v]|].
  - destruct (decide (Some ch = Some "/"%char)); [|done]. by destruct pv as [[|ch' v]|].
Qed.

(** X3.  The partition field that [formatPartitionKeyValue] adds to records and
    parameters, on the instance the constructor returns: its name is the
    partition key of the caller's settings without the leading separator,
    whether or not the caller wrote one; its value is the partition value, or
    the empty string; without partition key nothing is added. *)
Theorem partition_field_of_new_instance
    (policy : ConnectionPolicy) (configure : option (ConnectionPolicy → ConnectionPolicy))
    (heap : gmap loc CosmosDbStorageSettings) (caller : loc) (s : CosmosDbStorageSettings) :
  heap !! caller = Some s →
  validated s = true →
  ∃ instance heap',
    constructor policy (Some caller) configure heap = (Normal instance, heap') ∧
    ∀ m, this m = instance → settingsObjects m = heap' →
      formatPartitionKeyValue m =
        (Normal match partitionKey s with
                | Some k =>
                    if JsString.isEmpty k then ∅
                    else {[ stripSeparator k
                            := JsString.orElse (partitionValue s) EmptyString ]}
                | None => ∅
                end, m).
Proof.
  intros Hs Hv. eexists _, _. split; [by apply constructor_validated|].
  intros m Hthis Hheap. rewrite formatPartitionKeyValue_eval.
  unfold currentSettings. rewrite Hthis, Hheap. cbn [settings].
  rewrite lookup_insert_eq. cbn [default from_option id].
  by rewrite partitionFields_normalized.
Qed.

(** ** The constructor of the previous revision *)

Lemma prependSeparator_own own s heap :
  prependSeparator own (<[own := s]> heap)
  = <[own := setPartitionKey (partitionKey (normalized s)) s]> heap.
Proof.
  unfold prependSeparator. rewrite lookup_insert_eq; simpl.
  destruct s as [e a d c pk pv o1 o2]; simpl.
  unfold normalized, setPartitionKey; simpl.
  destruct pk as [[|ch k]|]; simpl; try done.
  rewrite alter_insert_eq. simpl.
  by destruct (decide (Some ch ≠ Some "/"%char)).
Qed.

(** X4.  With the four required settings in place, the previous revision of the
    constructor refuses exactly the partition keys that, written with the
    separator, are [/id], [/realId] or [/document]; it accepts every other
    one, and leaves the partition value as given. *)
Theorem previous_constructor_refuses_exactly_reserved
    (policy : ConnectionPolicy) (configure : option (ConnectionPolicy → ConnectionPolicy))
    (heap : gmap loc CosmosDbStorageSettings) (caller : loc) (s : CosmosDbStorageSettings) :
  heap !! caller = Some s →
  validated s = true →
  (partitionKey (normalized s) ∈ reservedPaths →
     ∃ e heap', Previous.constructor policy (Some caller) configure heap = (Throw e, heap')) ∧
  (partitionKey (normalized s) ∉ reservedPaths →
     ∃ instance,
       Previous.constructor policy (Some caller) configure heap
       = (Normal instance,
          <[settings instance := setPartitionKey (partitionKey (normalized s)) s]> heap) ∧
       heap !! settings instance = None).
Proof.
  intros Hs Hv. unfold validated in Hv.
  apply andb_prop in Hv as [Hv H4]. apply andb_prop in Hv as [Hv H3].
  apply andb_prop in Hv as [H1 H2].
  apply negb_true_iff in H1, H2, H3, H4.
  unfold Previous.constructor. rewrite Hs; simpl. rewrite H1, H2, H3, H4.
  unfold allocate. rewrite prependSeparator_own, lookup_insert_eq.
  cbn [default from_option id]. unfold reservedPaths.
  assert (Hpk : partitionKey (setPartitionKey (partitionKey (normalized s)) s)
                = partitionKey (normalized s)) by (by destruct s).
  rewrite Hpk. split; intros Hin.
  - rewrite bool_decide_eq_true_2 by done. eauto.
  - rewrite bool_decide_eq_false_2 by done.
    eexists (mkStorage (fresh (dom heap)) _ None None _ _). split; [reflexivity|].
    simpl. apply not_elem_of_dom, is_fresh.
Qed.

(** ** Provisioning *)

Lemma receive_refuses {A} c (serve : Cosmos → Completion A * Cosmos) w e rest :
  faults w = Some e :: rest → receive c serve w = (Throw e, refused c rest w).
Proof. intros H. unfold receive, refused. by rewrite H. Qed.

Lemma getOrCreateDatabase_answers m :
  answers (cosmos m) →
  getOrCreateDatabase m
  = (Normal tt,
     mkMachine (setDatabase (Some (mkDatabase (databaseId (currentSettings m)))) (this m))
       (settingsObjects m) (storeItemObjects m)
       (accept (createDatabaseCall m) (cosmos m)) (unhandledRejections m)).
Proof.
  intros Hans. unfold getOrCreateDatabase, tryCatch, bind, thisSettings, getThis, request; simpl.
  by rewrite receive_answers.
Qed.

Lemma getOrCreateDatabase_refused m err rest :
  faults (cosmos m) = Some err :: rest →
  getOrCreateDatabase m
  = (if codeIs err 409 then Normal tt
     else Throw (errWithNewMessage err "Error initializing database"),
     withCosmos (refused (createDatabaseCall m) rest (cosmos m)) m).
Proof.
  intros Hf. unfold getOrCreateDatabase, tryCatch, bind, thisSettings, getThis, request; simpl.
  rewrite (receive_refuses _ _ _ _ _ Hf). simpl. by destruct (codeIs err 409).
Qed.

Lemma getOrCreateContainer_answers m db :
  database (this m) = Some db →
  answers (cosmos m) →
  getOrCreateContainer m
  = (Normal tt,
     mkMachine (setContainer (Some (mkContainer db (collectionId (currentSettings m)))) (this m))
       (settingsObjects m) (storeItemObjects m)
       (accept (createContainerCall db m) (cosmos m)) (unhandledRejections m)).
Proof.
  intros Hdb Hans.
  unfold getOrCreateContainer, tryCatch, bind, thisSettings, getThis, request; simpl.
  rewrite Hdb; simpl. by rewrite receive_answers.
Qed.

Lemma getOrCreateContainer_refused m db err rest :
  database (this m) = Some db →
  faults (cosmos m) = Some err :: rest →
  getOrCreateContainer m
  = (if codeIs err 400
     then Throw (errWithNewMessage err (partitionHint "                "))
     else if codeIs err 409 then Normal tt
     else Throw (errWithNewMessage err "Error initializing container"),
     withCosmos (refused (createContainerCall db m) rest (cosmos m)) m).
Proof.
  intros Hdb Hf.
  unfold getOrCreateContainer, tryCatch, bind, thisSettings, getThis, request; simpl.
  rewrite Hdb; simpl. rewrite (receive_refuses _ _ _ _ _ Hf). simpl.
  destruct (codeIs err 400); [done|]. by destruct (codeIs err 409).
Qed.

(** X5.  When the service answers, the provisioning step sends one request for
    each handle the instance lacks and none for a handle it has, leaves both
    handles in place, and a second run sends nothing and changes nothing. *)
Theorem provisioning_happens_once (m : Machine) :
  answersAll (cosmos m) →
  let m1 := (ensureContainerExists m).2 in
  (ensureContainerExists m).1 = Normal tt ∧
  handlesMissing (this m1) = 0%nat ∧
  length (calls (cosmos m1)) = (length (calls (cosmos m)) + handlesMissing (this m))%nat ∧
  Forall (λ c, isCreateDatabase c || isCreateContainer c = true)
         (take (handlesMissing (this m)) (calls (cosmos m1))) ∧
  ensureContainerExists m1 = (Normal tt, m1).
Proof.
  intros Hall.
  assert (H : ∃ m1, ensureContainerExists m = (Normal tt, m1) ∧
                    handlesMissing (this m1) = 0%nat ∧
                    length (calls (cosmos m1))
                      = (length (calls (cosmos m)) + handlesMissing (this m))%nat ∧
                    Forall (λ c, isCreateDatabase c || isCreateContainer c = true)
                           (take (handlesMissing (this m)) (calls (cosmos m1)))).
  { unfold ensureContainerExists.
    rewrite (bind_normal _ _ _ _ _ (getThis_eval m)).
    pose proof (answersAll_answers _ Hall) as Hans.
    destruct (database (this m)) as [db|] eqn:Hdb.
    - rewrite (bind_normal (ret tt) _ m tt m eq_refl).
      rewrite (bind_normal _ _ _ _ _ (getThis_eval m)).
      destruct (container (this m)) as [co|] eqn:Hco.
      + exists m. unfold handlesMissing. rewrite Hdb, Hco. simpl.
        split_and!; first [done|lia].
      + rewrite (getOrCreateContainer_answers m db Hdb Hans).
        eexists; split; [reflexivity|]. unfold handlesMissing. simpl. rewrite Hdb, Hco. simpl.
        split_and!; first [done|lia|by repeat constructor].
    - rewrite (bind_normal _ _ _ _ _ (getOrCreateDatabase_answers m Hans)).
      set (m0 := mkMachine _ _ _ _ _).
      rewrite (bind_normal _ _ _ _ _ (getThis_eval m0)).
      assert (Hans0 : answers (cosmos m0)).
      { apply answersAll_answers. subst m0; simpl. by apply answersAll_accept. }
      destruct (container (this m)) as [co|] eqn:Hco.
      + assert (Hco0 : container (this m0) = Some co) by (subst m0; simpl; by rewrite Hco).
        rewrite Hco0. exists m0. split; [reflexivity|].
        unfold handlesMissing. subst m0. simpl. rewrite Hdb, Hco. simpl.
        split_and!; first [done|lia|by repeat constructor].
      + assert (Hco0 : container (this m0) = None) by (subst m0; simpl; by rewrite Hco).
        rewrite Hco0.
        rewrite (getOrCreateContainer_answers m0 _ eq_refl Hans0).
        eexists; split; [reflexivity|]. unfold handlesMissing. simpl. rewrite Hdb, Hco. simpl.
        split_and!; first [done|lia|by repeat constructor]. }
  destruct H as (m1 & Hrun & Hnone & Hlen & Hcalls). cbv zeta. rewrite Hrun. simpl.
  split_and!; try done.
  unfold handlesMissing in Hnone.
  destruct (database (this m1)) as [db|] eqn:Hdb; [|lia].
  destruct (container (this m1)) as [co|] eqn:Hco; [|lia].
  by eapply ensureContainerExists_provisioned.
Qed.

Lemma ensureContainerExists_database_refused m err rest :
  database (this m) = None →
  faults (cosmos m) = Some err :: rest →
  codeIs err 409 = false →
  ensureContainerExists m
  = (Throw (errWithNewMessage err "Error initializing database"),
     withCosmos (refused (createDatabaseCall m) rest (cosmos m)) m).
Proof.
  intros Hdb Hf Hcode. unfold ensureContainerExists.
  rewrite (bind_normal _ _ _ _ _ (getThis_eval m)). rewrite Hdb.
  erewrite bind_throw; [reflexivity|].
  rewrite (getOrCreateDatabase_refused m err rest Hf). by rewrite Hcode.
Qed.

Lemma ensureContainerExists_container_refused m db err rest :
  database (this m) = Some db →
  container (this m) = None →
  faults (cosmos m) = Some err :: rest →
  ensureContainerExists m
  = (if codeIs err 400
     then Throw (errWithNewMessage err (partitionHint "                "))
     else if codeIs err 409 then Normal tt
     else Throw (errWithNewMessage err "Error initializing container"),
     withCosmos (refused (createContainerCall db m) rest (cosmos m)) m).
Proof.
  intros Hdb Hco Hf. unfold ensureContainerExists.
  rewrite (bind_normal _ _ _ _ _ (getThis_eval m)). rewrite Hdb.
  rewrite (bind_normal (ret tt) _ m tt m eq_refl).
  rewrite (bind_normal _ _ _ _ _ (getThis_eval m)). rewrite Hco.
  by apply getOrCreateContainer_refused.
Qed.

(** X6.  A failure of the creation of the database, other than "already exists",
    ends the operation: [read], [write] and [delete] reject with the failure
    wrapped as the error of the database; the container is not asked for, no
    request about data is sent, and no handle is kept. *)
Theorem database_failure_ends_the_operation
    (escapeKey : string → string) (m : Machine) (err : Thrown)
    (rest : list (option Thrown)) (keys : list string) (changes : list (string * loc)) :
  keys ≠ [] → changes ≠ [] →
  database (this m) = None →
  faults (cosmos m) = Some err :: rest →
  codeIs err 409 = false →
  let e := errWithNewMessage err "Error initializing database" in
  let m' := withCosmos (refused (createDatabaseCall m) rest (cosmos m)) m in
  read escapeKey (Some keys) m = (Throw e, m') ∧
  write escapeKey (Some changes) m = (Throw e, m') ∧
  delete escapeKey (Some keys) m = (Throw e, m').
Proof.
  intros Hkeys Hchanges Hdb Hf Hcode. cbv zeta.
  apply provisioning_failure_is_the_outcome; try done.
  by apply ensureContainerExists_database_refused.
Qed.

(** X7.  A failure of the creation of the container ends the operation too: a
    response of code 400 is reported with the hint about partitions, any
    other failure than "already exists" as the error of the container. *)
Theorem container_failure_ends_the_operation
    (escapeKey : string → string) (m : Machine) (db : Database) (err : Thrown)
    (rest : list (option Thrown)) (keys : list string) (changes : list (string * loc)) :
  keys ≠ [] → changes ≠ [] →
  database (this m) = Some db →
  container (this m) = None →
  faults (cosmos m) = Some err :: rest →
  codeIs err 409 = false →
  let e := errWithNewMessage err
             (if codeIs err 400 then partitionHint "                "
              else "Error initializing container") in
  let m' := withCosmos (refused (createContainerCall db m) rest (cosmos m)) m in
  read escapeKey (Some keys) m = (Throw e, m') ∧
  write escapeKey (Some changes) m = (Throw e, m') ∧
  delete escapeKey (Some keys) m = (Throw e, m').
Proof.
  intros Hkeys Hchanges Hdb Hco Hf Hcode. cbv zeta.
  apply provisioning_failure_is_the_outcome; try done.
  rewrite (ensureContainerExists_container_refused m db err rest Hdb Hco Hf). rewrite Hcode.
  by destruct (codeIs err 400).
Qed.

(** ** Read *)

(** [read] on an instance that has its handles: one query, then the loop over
    what it returned; a failure of either is wrapped by the [catch]. *)
Lemma read_provisioned escapeKey keys m db co :
  keys ≠ [] →
  database (this m) = Some db →
  container (this m) = Some co →
  read escapeKey (Some keys) m =
    let spec := querySpecFor escapeKey (partitionFields (currentSettings m)) keys in
    let wrap := λ err,
      errWithNewMessage err
        (if codeIs err 400 then partitionHint "                    "
         else "Error reading from container") in
    match receive (ItemsQuery co spec (partitionValue (currentSettings m)))
                  (serveQuery spec) (cosmos m) with
    | (Normal rs, w) =>
        match foldJs pushDocument ∅ rs (withCosmos w m) with
        | (Throw err, m') => (Throw (wrap err), m')
        | done => done
        end
    | (Throw err, w) => (Throw (wrap err), withCosmos w m)
    end.
Proof.
  intros Hkeys Hdb Hco. destruct keys as [|k0 keys]; [done|].
  unfold read.
  rewrite (bind_normal _ _ _ _ _ (formatPartitionKeyValue_eval m)).
  rewrite (bind_normal _ _ _ _ _ (ensureContainerExists_provisioned m db co Hdb Hco)).
  unfold tryCatch.
  rewrite (bind_normal _ _ _ _ _ (thisSettings_eval m)).
  rewrite (bind_normal _ _ _ _ _ (getThis_eval m)).
  rewrite Hco. unfold deref.
  erewrite (bind_normal (ret co)) by reflexivity.
  unfold bind at 1, request. cbv zeta.
  destruct (receive _ _ (cosmos m)) as [[rs|err] w]; simpl.
  - unfold withCosmos.
    destruct (foldJs pushDocument ∅ rs _) as [[result|err] m']; simpl; [done|].
    by destruct (codeIs err 400).
  - by destruct (codeIs err 400).
Qed.

(** X8.  A failure of the query is not absorbed, whatever its code: [read] rejects
    with the failure wrapped, with the hint about partitions for a response of
    code 400 and as the error of reading otherwise; only the log and the
    script of the service have moved. *)
Theorem read_wraps_query_failure
    (escapeKey : string → string) (keys : list string) (m : Machine)
    (db : Database) (co : Container) (err : Thrown) (rest : list (option Thrown)) :
  keys ≠ [] →
  database (this m) = Some db →
  container (this m) = Some co →
  faults (cosmos m) = Some err :: rest →
  read escapeKey (Some keys) m
  = (Throw (errWithNewMessage err
              (if codeIs err 400 then partitionHint "                    "
               else "Error reading from container")),
     withCosmos
       (refused (ItemsQuery co
                   (querySpecFor escapeKey (partitionFields (currentSettings m)) keys)
                   (partitionValue (currentSettings m)))
                rest (cosmos m)) m).
Proof.
  intros Hkeys Hdb Hco Hf.
  rewrite (read_provisioned escapeKey keys m db co Hkeys Hdb Hco). cbv zeta.
  by rewrite (receive_refuses _ _ _ _ _ Hf).
Qed.

(** *** Frame rules for the provisioning step and the loops *)

Section MoreFrames.
Context (R : Machine → Machine → Prop) `{!Reflexive R} `{!Transitive R}.

Lemma Preserves_forEach_elem {A} (f : A → Js unit) (l : list A) :
  (∀ a, a ∈ l → Preserves R (f a)) → Preserves R (forEach f l).
Proof.
  induction l as [|a l IH]; intros Hf; simpl.
  - by apply (Preserves_ret R).
  - apply (Preserves_bind R); [apply Hf; by left|intros _].
    apply IH. intros a' Ha'. apply Hf. by right.
Qed.

Lemma Preserves_foldJs {A B} (step : B → A → Js B) (l : list A) :
  (∀ acc a, Preserves R (step acc a)) → ∀ acc, Preserves R (foldJs step acc l).
Proof.
  intros Hstep. induction l as [|a l IH]; intros acc; simpl.
  - by apply (Preserves_ret R).
  - apply Preserves_bind; auto.
Qed.

(** A relation kept by the assignment of a handle and by a request that the
    service serves without changing its data is kept by the provisioning
    step. *)
Lemma Preserves_ensureContainerExists :
  (∀ f, Preserves R (updateThis f)) →
  (∀ A c (serve : Cosmos → Completion A * Cosmos),
     (∀ w, (serve w).2 = w) → Preserves R (request c serve)) →
  Preserves R ensureContainerExists.
Proof.
  intros Hthis Hreq.
  assert (Hdb : Preserves R getOrCreateDatabase).
  { unfold getOrCreateDatabase. apply (Preserves_tryCatch R); [|].
    - apply (Preserves_bind R); [by apply (Preserves_thisSettings R)|intros s].
      apply (Preserves_bind R); [by apply (Preserves_getThis R)|intros self].
      apply (Preserves_bind R); [|intros d; apply Hthis].
      by apply Hreq.
    - intros e. destruct (negb (codeIs e 409));
        [by apply (Preserves_throw R)|by apply (Preserves_ret R)]. }
  assert (Hco : Preserves R getOrCreateContainer).
  { unfold getOrCreateContainer. apply (Preserves_tryCatch R); [|].
    - apply (Preserves_bind R); [by apply (Preserves_thisSettings R)|intros s].
      apply (Preserves_bind R); [by apply (Preserves_getThis R)|intros self].
      apply (Preserves_bind R); [by apply (Preserves_deref R)|intros d].
      apply (Preserves_bind R); [|intros c; apply Hthis].
      by apply Hreq.
    - intros e. destruct (codeIs e 400); [by apply (Preserves_throw R)|].
      destruct (negb (codeIs e 409));
        [by apply (Preserves_throw R)|by apply (Preserves_ret R)]. }
  unfold ensureContainerExists.
  apply (Preserves_bind R); [by apply (Preserves_getThis R)|intros self].
  apply (Preserves_bind R); [|intros _].
  - destruct (database self); [by apply (Preserves_ret R)|done].
  - apply (Preserves_bind R); [by apply (Preserves_getThis R)|intros self'].
    destruct (container self'); [by apply (Preserves_ret R)|done].
Qed.
End MoreFrames.

Global Instance readFrame_refl : Reflexive readFrame.
Proof. intros m. by split_and!. Qed.

Global Instance readFrame_trans : Transitive readFrame.
Proof.
  intros m1 m2 m3 (Ha & Hb & Hc & Hd & He) (Ha' & Hb' & Hc' & Hd' & He').
  split_and!; try congruence. by etransitivity.
Qed.

Lemma readFrame_request {A} c (serve : Cosmos → Completion A * Cosmos) :
  (∀ w, (serve w).2 = w) → Preserves readFrame (request c serve).
Proof.
  intros Hserve m. unfold request, receive.
  destruct (faults (cosmos m)) as [|[e|] rest]; simpl; try (by split_and!).
  - match goal with |- context [serve ?w] =>
      pose proof (Hserve w) as Hw; destruct (serve w) as [r w'] end.
    simpl in *. subst w'. by split_and!.
  - match goal with |- context [serve ?w] =>
      pose proof (Hserve w) as Hw; destruct (serve w) as [r w'] end.
    simpl in *. subst w'. by split_and!.
Qed.

Lemma readFrame_pushDocument acc r : Preserves readFrame (pushDocument acc r).
Proof.
  intros m. unfold pushDocument.
  destruct (doc_document (res_document r)) as [item|s]; [|by split_and!].
  unfold bind, newItem, updateItem, ret, allocate; simpl.
  rewrite alter_insert_eq. split_and!; try done. simpl.
  apply insert_subseteq, not_elem_of_dom, is_fresh.
Qed.

(** X9.  [read] only reads: whatever the keys, the state of the instance and the
    answers of the service, the records of the container and their versions
    are as before, the settings and every item object that existed are as
    before, and no promise is left behind. *)
Theorem read_only_reads
    (escapeKey : string → string) (keys : option (list string)) (m : Machine) :
  let m' := (read escapeKey keys m).2 in
  documents (cosmos m') = documents (cosmos m) ∧
  versions (cosmos m') = versions (cosmos m) ∧
  settingsObjects m' = settingsObjects m ∧
  (∀ l item, storeItemObjects m !! l = Some item → storeItemObjects m' !! l = Some item) ∧
  unhandledRejections m' = unhandledRejections m.
Proof.
  assert (H : Preserves readFrame (read escapeKey keys)).
  { unfold read. destruct keys as [[|k0 keys]|];
      [by apply (Preserves_ret readFrame)| |by apply (Preserves_ret readFrame)].
    apply (Preserves_bind readFrame);
      [by apply (Preserves_formatPartitionKeyValue readFrame)|intros p].
    apply (Preserves_bind readFrame); [|intros _].
    { apply (Preserves_ensureContainerExists readFrame); [|].
      - intros f m0. by split_and!.
      - intros A c serve Hserve. by apply readFrame_request. }
    apply (Preserves_tryCatch readFrame); [|].
    - apply (Preserves_bind readFrame); [by apply (Preserves_thisSettings readFrame)|intros s].
      apply (Preserves_bind readFrame); [by apply (Preserves_getThis readFrame)|intros self].
      apply (Preserves_bind readFrame); [by apply (Preserves_deref readFrame)|intros co].
      apply (Preserves_bind readFrame); [by apply readFrame_request|intros rs].
      apply (Preserves_foldJs readFrame). intros acc r. apply readFrame_pushDocument.
    - intros e. destruct (codeIs e 400); by apply (Preserves_throw readFrame). }
  destruct (H m) as (Hs & Hi & Hd & Hv & Hu). cbv zeta. split_and!; try done.
  intros l item Hl. by eapply lookup_weaken.
Qed.

Lemma requested_values escapeKey (partition : gmap string string) (keys : list string) :
  ∀ name : nat → string,
    omap (λ p : gmap string string, p !! "value")
         (imap (λ (ix : nat) (key : string),
                  partition ∪ {[ "name" := name ix; "value" := escapeKey key ]}) keys)
    = (λ key, default (escapeKey key) (partition !! "value")) <$> keys.
Proof.
  induction keys as [|key keys IH]; intros name; [done|].
  cbn [imap omap fmap list_fmap].
  assert (Hhead : (partition ∪ {[ "name" := name 0%nat; "value" := escapeKey key ]})
                    !! "value" = Some (default (escapeKey key) (partition !! "value"))).
  { destruct (partition !! "value") as [v|] eqn:Hv.
    - by rewrite (lookup_union_Some_l _ _ _ _ Hv).
    - rewrite lookup_union_r by done.
      rewrite lookup_insert_ne by done. by rewrite lookup_singleton_eq. }
  cbn [list_omap]. rewrite Hhead. f_equal. exact (IH (λ ix, name (S ix))).
Qed.

(** X10.  The parameters of the query of [read]: one for each key, in the order of
    the keys; its value is the escaped key, unless the partition field is
    itself named [value], whose value then takes its place. *)
Theorem read_query_parameters
    (escapeKey : string → string) (partition : gmap string string) (keys : list string) :
  length (parameters (querySpecFor escapeKey partition keys)) = length keys ∧
  requestedIds (querySpecFor escapeKey partition keys)
  = (λ key, default (escapeKey key) (partition !! "value")) <$> keys.
Proof.
  unfold querySpecFor, requestedIds, parameterValues; simpl. split.
  - apply length_imap.
  - apply requested_values.
Qed.

(** ** Delete *)

Global Instance deleteFrame_refl ids : Reflexive (deleteFrame ids).
Proof. intros m. by split_and!. Qed.

Global Instance deleteFrame_trans ids : Transitive (deleteFrame ids).
Proof.
  intros m1 m2 m3 (Ha & Hb & Hc & Hd & He) (Ha' & Hb' & Hc' & Hd' & He').
  split_and!; try congruence.
  - by etransitivity.
  - intros id Hid. rewrite Hd' by done. by apply Hd.
Qed.

Lemma deleteFrame_request {A} ids c (serve : Cosmos → Completion A * Cosmos) :
  (∀ w, documents (serve w).2 ⊆ documents w ∧
        (∀ id, id ∉ ids → documents (serve w).2 !! id = documents w !! id) ∧
        versions (serve w).2 = versions w) →
  Preserves (deleteFrame ids) (request c serve).
Proof.
  intros Hserve m. unfold request, receive.
  destruct (faults (cosmos m)) as [|[e|] rest]; simpl; try (by split_and!).
  - match goal with |- context [serve ?w] =>
      destruct (Hserve w) as (H1 & H2 & H3); destruct (serve w) as [r w'] end.
    by split_and!.
  - match goal with |- context [serve ?w] =>
      destruct (Hserve w) as (H1 & H2 & H3); destruct (serve w) as [r w'] end.
    by split_and!.
Qed.

Lemma deleteFrame_deleteKey escapeKey ids k :
  escapeKey k ∈ ids → Preserves (deleteFrame ids) (deleteKey escapeKey k).
Proof.
  intros Hin. unfold deleteKey, pointDelete.
  apply (Preserves_tryCatch (deleteFrame ids)).
  - apply (Preserves_bind (deleteFrame ids));
      [by apply (Preserves_thisSettings (deleteFrame ids))|intros s].
    apply (Preserves_bind (deleteFrame ids));
      [by apply (Preserves_getThis (deleteFrame ids))|intros self].
    apply (Preserves_bind (deleteFrame ids));
      [by apply (Preserves_deref (deleteFrame ids))|intros co].
    apply deleteFrame_request. intros w. unfold serveDelete.
    destruct (documents w !! escapeKey k) as [r|] eqn:Hr; simpl; [|done].
    split_and!; [apply delete_subseteq| |done].
    intros id Hid. apply lookup_delete_ne. by intros <-.
  - intros e. destruct (negb (codeIs e 404));
      [by apply (Preserves_throw (deleteFrame ids))|by apply (Preserves_ret (deleteFrame ids))].
Qed.

(** X11.  [delete] only removes, and only what it was asked to: a record whose [id]
    is not the escaped form of one of the keys is as before, every record
    left was there before, and the settings and the item objects are
    untouched, whatever the service answers. *)
Theorem delete_only_removes_its_keys
    (escapeKey : string → string) (keys : option (list string)) (m : Machine) :
  let m' := (delete escapeKey keys m).2 in
  documents (cosmos m') ⊆ documents (cosmos m) ∧
  (∀ id, id ∉ escapeKey <$> default [] keys →
         documents (cosmos m') !! id = documents (cosmos m) !! id) ∧
  versions (cosmos m') = versions (cosmos m) ∧
  storeItemObjects m' = storeItemObjects m ∧
  settingsObjects m' = settingsObjects m.
Proof.
  set (ids := escapeKey <$> default [] keys).
  assert (H : Preserves (deleteFrame ids) (delete escapeKey keys)).
  { unfold delete. destruct keys as [[|k0 keys]|];
      [by apply (Preserves_ret (deleteFrame ids))|
      |by apply (Preserves_ret (deleteFrame ids))].
    apply (Preserves_bind (deleteFrame ids)); [|intros _].
    { apply (Preserves_ensureContainerExists (deleteFrame ids)).
      - intros f m0. by split_and!.
      - intros A c serve Hserve. apply deleteFrame_request. intros w. by rewrite Hserve. }
    apply (Preserves_forEach_elem (deleteFrame ids)). intros k Hk.
    apply (Preserves_floating (deleteFrame ids)).
    - intros m0 e. by split_and!.
    - apply deleteFrame_deleteKey. subst ids. simpl.
      apply (list_elem_of_fmap_2 escapeKey) in Hk. exact Hk. }
  destruct (H m) as (Hs & Hi & Hd & Ho & Hv). cbv zeta. by split_and!.
Qed.

Lemma deleteKey_logs escapeKey k m co :
  container (this m) = Some co →
  let m' := (deleteKey escapeKey k m).2 in
  this m' = this m ∧ settingsObjects m' = settingsObjects m ∧
  unhandledRejections m' = unhandledRejections m ∧
  calls (cosmos m')
  = ItemDelete co (escapeKey k) (partitionKey (currentSettings m))
      (partitionValue (currentSettings m)) :: calls (cosmos m).
Proof.
  intros Hco.
  unfold deleteKey, tryCatch, pointDelete, bind, thisSettings, getThis, request, receive; simpl.
  rewrite Hco; simpl. unfold currentSettings.
  destruct (faults (cosmos m)) as [|[e|] rest]; simpl.
  - unfold serveDelete; simpl.
    destruct (documents (cosmos m) !! escapeKey k); simpl; by split_and!.
  - destruct (negb (codeIs e 404)); simpl; by split_and!.
  - unfold serveDelete; simpl.
    destruct (documents (cosmos m) !! escapeKey k); simpl; by split_and!.
Qed.

Lemma forEach_deleteKey_logs escapeKey co (keys : list string) :
  ∀ m r m', container (this m) = Some co →
    forEach (λ k, floating (deleteKey escapeKey k)) keys m = (r, m') →
    this m' = this m ∧ settingsObjects m' = settingsObjects m ∧
    (length (unhandledRejections m') ≤ length (unhandledRejections m) + length keys)%nat ∧
    calls (cosmos m')
    = (rev (map (λ k, ItemDelete co (escapeKey k) (partitionKey (currentSettings m))
                        (partitionValue (currentSettings m))) keys)
       ++ calls (cosmos m))%list.
Proof.
  induction keys as [|k keys IH]; intros m r m' Hco Hrun.
  - injection Hrun as _ <-. simpl. split_and!; try done. lia.
  - cbn [forEach] in Hrun. unfold bind at 1, floating at 1 in Hrun.
    destruct (deleteKey_logs escapeKey k m co Hco) as (Ht & Hs & Hu & Hc).
    destruct (deleteKey escapeKey k m) as [[[]|e] m1]; simpl in Ht, Hs, Hu, Hc.
    + destruct (IH m1 r m') as (Ht' & Hs' & Hu' & Hc'); [by rewrite Ht|done|].
      rewrite Hu in Hu'. rewrite Ht', Hs', Hc', Hc. unfold currentSettings. rewrite Ht, Hs.
      split_and!; try done; [simpl; lia|]. simpl. by rewrite <- app_assoc.
    + match type of Hrun with forEach _ _ ?m2 = _ =>
        destruct (IH m2 r m') as (Ht' & Hs' & Hu' & Hc'); [simpl; by rewrite Ht|done|] end.
      simpl in Ht', Hs', Hu', Hc'. rewrite Hu in Hu'.
      rewrite Ht', Hs', Hc', Hc. unfold currentSettings. simpl. rewrite Ht, Hs.
      split_and!; try done; [simpl; lia|]. simpl. by rewrite <- app_assoc.
Qed.

(** X12.  On an instance that has its handles, [delete] sends one point delete for
    each key, in the order of the keys, whether or not earlier ones failed,
    and resolves; the failures that are not absorbed, at most one for each
    key, are left as unhandled rejections. *)
Theorem delete_sends_one_request_per_key
    (escapeKey : string → string) (keys : list string) (m : Machine)
    (db : Database) (co : Container) :
  database (this m) = Some db →
  container (this m) = Some co →
  let r := delete escapeKey (Some keys) m in
  r.1 = Normal tt ∧
  calls (cosmos r.2)
  = (rev (map (λ k, ItemDelete co (escapeKey k) (partitionKey (currentSettings m))
                      (partitionValue (currentSettings m))) keys)
     ++ calls (cosmos m))%list ∧
  (length (unhandledRejections r.2) ≤ length (unhandledRejections m) + length keys)%nat.
Proof.
  intros Hdb Hco. cbv zeta. destruct keys as [|k0 keys].
  - simpl. split_and!; try done. lia.
  - unfold delete.
    rewrite (bind_normal _ _ _ _ _ (ensureContainerExists_provisioned m db co Hdb Hco)).
    pose proof (forEach_floating_resolves (deleteKey escapeKey) (k0 :: keys) m) as Hres.
    destruct (forEach (λ k, floating (deleteKey escapeKey k)) (k0 :: keys) m)
      as [r m'] eqn:Hrun.
    destruct (forEach_deleteKey_logs escapeKey co (k0 :: keys) m r m' Hco Hrun)
      as (_ & _ & Hu & Hc).
    by split_and!.
Qed.

(** ** Write *)

Lemma store_calls body w : calls (store body w) = calls w.
Proof. reflexivity. Qed.

(** One run of the callback of [write] on an instance with its container
    handle: one request, whatever the service answers. *)
Lemma writeKey_logs escapeKey changes k m co :
  container (this m) = Some co →
  let m' := (writeKey escapeKey changes k m).2 in
  this m' = this m ∧ settingsObjects m' = settingsObjects m ∧
  unhandledRejections m' = unhandledRejections m ∧
  length (calls (cosmos m')) = S (length (calls (cosmos m))).
Proof.
  intros Hco. cbv zeta. rewrite writeKey_prefix. cbv zeta.
  destruct (unconditional (eTag (itemOf changes k m))) eqn:Hu.
  - unfold tryCatch, bind, getThis, deref, request, receive, serveUpsert; simpl.
    rewrite Hco; simpl.
    destruct (faults (cosmos m)) as [|[e|] rest]; simpl; by split_and!.
  - rewrite (unconditional_false _ Hu).
    unfold tryCatch, bind, thisSettings, getThis, deref, request, receive; simpl.
    rewrite Hco; simpl.
    destruct (faults (cosmos m)) as [|[e|] rest]; simpl; try (by split_and!).
    + match goal with |- context [serveReplace ?i ?b ?t ?w] =>
        pose proof (serveReplace_calls i b t w) as Hc;
        destruct (serveReplace i b t w) as [[[]|e] w'] end; simpl in *; rewrite ?Hc;
        by split_and!.
    + match goal with |- context [serveReplace ?i ?b ?t ?w] =>
        pose proof (serveReplace_calls i b t w) as Hc;
        destruct (serveReplace i b t w) as [[[]|e] w'] end; simpl in *; rewrite ?Hc;
        by split_and!.
Qed.

Lemma forEach_writeKey_logs escapeKey changes co (keys : list string) :
  ∀ m r m', container (this m) = Some co →
    forEach (λ k, floating (writeKey escapeKey changes k)) keys m = (r, m') →
    this m' = this m ∧
    (length (unhandledRejections m') ≤ length (unhandledRejections m) + length keys)%nat ∧
    length (calls (cosmos m')) = (length (calls (cosmos m)) + length keys)%nat.
Proof.
  induction keys as [|k keys IH]; intros m r m' Hco Hrun.
  - injection Hrun as _ <-. simpl. split_and!; try done; lia.
  - cbn [forEach] in Hrun. unfold bind at 1, floating at 1 in Hrun.
    destruct (writeKey_logs escapeKey changes k m co Hco) as (Ht & Hs & Hu & Hc).
    destruct (writeKey escapeKey changes k m) as [[[]|e] m1]; simpl in Ht, Hs, Hu, Hc.
    + destruct (IH m1 r m') as (Ht' & Hu' & Hc'); [by rewrite Ht|done|].
      rewrite Hu in Hu'. rewrite Ht', Hc', Hc. split_and!; try done; simpl; lia.
    + match type of Hrun with forEach _ _ ?m2 = _ =>
        destruct (IH m2 r m') as (Ht' & Hu' & Hc'); [simpl; by rewrite Ht|done|] end.
      simpl in Ht', Hu', Hc'. rewrite Hu in Hu'.
      rewrite Ht', Hc', Hc. split_and!; try done; simpl; lia.
Qed.

(** X13.  On an instance that has its handles, [write] sends one request for each
    key of [changes], whether or not earlier ones failed, and resolves; at
    most one unhandled rejection is left for each key. *)
Theorem write_sends_one_request_per_key
    (escapeKey : string → string) (changes : list (string * loc)) (m : Machine)
    (db : Database) (co : Container) :
  database (this m) = Some db →
  container (this m) = Some co →
  let r := write escapeKey (Some changes) m in
  r.1 = Normal tt ∧
  length (calls (cosmos r.2)) = (length (calls (cosmos m)) + length changes)%nat ∧
  (length (unhandledRejections r.2)
   ≤ length (unhandledRejections m) + length changes)%nat ∧
  this r.2 = this m.
Proof.
  intros Hdb Hco. cbv zeta. unfold write.
  destruct (objectKeys changes) as [|k0 keys] eqn:Hkeys.
  - destruct changes; [|done]. simpl. split_and!; try done; lia.
  - rewrite (bind_normal _ _ _ _ _ (ensureContainerExists_provisioned m db co Hdb Hco)).
    pose proof (forEach_floating_resolves (writeKey escapeKey changes) (k0 :: keys) m) as Hres.
    destruct (forEach (λ k, floating (writeKey escapeKey changes k)) (k0 :: keys) m)
      as [r m'] eqn:Hrun.
    destruct (forEach_writeKey_logs escapeKey changes co (k0 :: keys) m r m' Hco Hrun)
      as (Ht & Hu & Hc).
    assert (Hlen : length (k0 :: keys) = length changes).
    { rewrite <- Hkeys. unfold objectKeys. apply length_map. }
    rewrite Hlen in Hu, Hc. by split_and!.
Qed.

(** One run of the callback, with a partition field apart from the envelope:
    no record but the one under the escaped key is touched. *)
Lemma writeKey_touches escapeKey changes k m :
  partitionApart (currentSettings m) →
  let m' := (writeKey escapeKey changes k m).2 in
  this m' = this m ∧ settingsObjects m' = settingsObjects m ∧
  ∀ id, id ≠ escapeKey k → documents (cosmos m') !! id = documents (cosmos m) !! id.
Proof.
  intros Hapart. cbv zeta. rewrite writeKey_prefix. cbv zeta.
  set (body := documentChangeOf escapeKey changes k m).
  assert (Hid : doc_id body = escapeKey k).
  { subst body. unfold documentChangeOf. by apply spreadInto_apart. }
  clearbody body.
  destruct (unconditional (eTag (itemOf changes k m))) eqn:Hu.
  - unfold tryCatch, bind, getThis, deref, request, receive, serveUpsert, store; simpl.
    destruct (container (this m)) as [co|]; simpl; [|by split_and!].
    destruct (faults (cosmos m)) as [|[e|] rest]; simpl; split_and!; try done;
      intros id Hne; rewrite Hid; by apply lookup_insert_ne.
  - rewrite (unconditional_false _ Hu).
    unfold tryCatch, bind, thisSettings, getThis, deref, request, receive, serveReplace; simpl.
    destruct (container (this m)) as [co|]; simpl; [|by split_and!].
    destruct (faults (cosmos m)) as [|[e|] rest]; simpl;
      try (by split_and!);
      (destruct (documents (cosmos m) !! escapeKey k) as [old|]; simpl; [|by split_and!];
       destruct (decide (res_etag old = _)); simpl; split_and!; try done;
       intros id Hne; by apply lookup_insert_ne).
Qed.

Lemma forEach_writeKey_touches escapeKey changes (keys : list string) :
  ∀ m r m', partitionApart (currentSettings m) →
    forEach (λ k, floating (writeKey escapeKey changes k)) keys m = (r, m') →
    ∀ id, id ∉ escapeKey <$> keys →
      documents (cosmos m') !! id = documents (cosmos m) !! id.
Proof.
  induction keys as [|k keys IH]; intros m r m' Hapart Hrun id Hid.
  - by injection Hrun as _ <-.
  - cbn [forEach] in Hrun. unfold bind at 1, floating at 1 in Hrun.
    rewrite fmap_cons in Hid. apply not_elem_of_cons in Hid as [Hne Hid].
    destruct (writeKey_touches escapeKey changes k m Hapart) as (Ht & Hs & Hd).
    destruct (writeKey escapeKey changes k m) as [[[]|e] m1]; simpl in Ht, Hs, Hd.
    + rewrite <- (Hd id Hne). eapply IH; [|exact Hrun|exact Hid].
      unfold currentSettings. by rewrite Ht, Hs.
    + rewrite <- (Hd id Hne).
      match type of Hrun with forEach _ _ ?m2 = _ =>
        apply (IH m2 r m'); [|exact Hrun|exact Hid] end.
      unfold currentSettings. simpl. by rewrite Ht, Hs.
Qed.

(** X14.  With a partition field apart from the envelope, [write] touches no record
    but those of the keys of [changes]: a record whose [id] is not the escaped
    form of one of them is as before, whatever the service answers. *)
Theorem write_touches_only_its_keys
    (escapeKey : string → string) (changes : list (string * loc)) (m : Machine) :
  partitionApart (currentSettings m) →
  ∀ id, id ∉ escapeKey <$> objectKeys changes →
    documents (cosmos (write escapeKey (Some changes) m).2) !! id
    = documents (cosmos m) !! id.
Proof.
  intros Hapart id Hid. unfold write.
  destruct (objectKeys changes) as [|k0 keys] eqn:Hkeys; [done|].
  pose proof (ensureContainerExists_keeps_documents m) as (Hs & Hso & Hd).
  unfold bind at 1.
  destruct (ensureContainerExists m) as [[[]|e] m1]; cbn [fst snd] in *; [|by rewrite Hd].
  rewrite <- Hd.
  destruct (forEach (λ k, floating (writeKey escapeKey changes k)) (k0 :: keys) m1)
    as [r m'] eqn:Hrun.
  eapply forEach_writeKey_touches; [|exact Hrun|exact Hid].
  unfold currentSettings. by rewrite Hs, Hso.
Qed.

(** ** Operations in sequence *)










(** ** The records [write] sends and stores *)

Lemma documentChangeOf_recordFor escapeKey changes k m :
  documentChangeOf escapeKey changes k m
  = recordFor escapeKey (currentSettings m) k (itemOf changes k m).
Proof. reflexivity. Qed.

(** One run of the callback of [write] on an instance with its container
    handle: the request it sends carries the record built from the caller's
    item, and a record it stores is that record. *)
Lemma writeKey_step escapeKey changes k m co :
  container (this m) = Some co →
  let m' := (writeKey escapeKey changes k m).2 in
  let body := recordFor escapeKey (currentSettings m) k (itemOf changes k m) in
  this m' = this m ∧ settingsObjects m' = settingsObjects m ∧
  calls (cosmos m')
  = requestFor escapeKey co (currentSettings m) k (itemOf changes k m) :: calls (cosmos m) ∧
  (documents (cosmos m') = documents (cosmos m) ∨
   ∃ id v, documents (cosmos m') = <[id := mkResource body v]> (documents (cosmos m))).
Proof.
  intros Hco. cbv zeta. rewrite writeKey_prefix. cbv zeta.
  rewrite documentChangeOf_recordFor. unfold requestFor.
  set (body := recordFor escapeKey (currentSettings m) k (itemOf changes k m)).
  destruct (unconditional (eTag (itemOf changes k m))) eqn:Hu.
  - unfold tryCatch, bind, getThis, deref, request, receive, serveUpsert, store; simpl.
    rewrite Hco; simpl.
    destruct (faults (cosmos m)) as [|[e|] rest]; simpl; split_and!; try done;
      try (by left); right; by eexists _, _.
  - rewrite (unconditional_false _ Hu).
    unfold tryCatch, bind, thisSettings, getThis, deref, request, receive, serveReplace; simpl.
    rewrite Hco; simpl. unfold currentSettings.
    destruct (faults (cosmos m)) as [|[e|] rest]; simpl;
      try (split_and!; try done; by left);
      (destruct (documents (cosmos m) !! escapeKey k) as [old|]; simpl;
         [|split_and!; try done; by left];
       destruct (decide (res_etag old = _)); simpl; split_and!; try done;
         try (by left); right; by eexists _, _).
Qed.

(** The same without the handle: the callback then fails before it sends
    anything. *)
Lemma writeKey_record escapeKey changes k m :
  let m' := (writeKey escapeKey changes k m).2 in
  let body := recordFor escapeKey (currentSettings m) k (itemOf changes k m) in
  this m' = this m ∧ settingsObjects m' = settingsObjects m ∧
  (documents (cosmos m') = documents (cosmos m) ∨
   ∃ id v, documents (cosmos m') = <[id := mkResource body v]> (documents (cosmos m))).
Proof.
  cbv zeta. destruct (container (this m)) as [co|] eqn:Hco.
  - by destruct (writeKey_step escapeKey changes k m co Hco) as (? & ? & _ & ?).
  - rewrite writeKey_prefix. cbv zeta.
    destruct (unconditional (eTag (itemOf changes k m))) eqn:Hu.
    + unfold tryCatch, bind, getThis, deref; simpl. rewrite Hco; simpl.
      split_and!; try done. by left.
    + rewrite (unconditional_false _ Hu).
      unfold tryCatch, bind, thisSettings, getThis, deref; simpl. rewrite Hco; simpl.
      split_and!; try done. by left.
Qed.

(** The items of [changes] stay what they are while the heap only grows. *)
Lemma itemOf_frame changes k m m' :
  itemsAllocated changes m →
  (∀ l, is_Some (storeItemObjects m !! l) →
        storeItemObjects m' !! l = storeItemObjects m !! l) →
  itemOf changes k m' = itemOf changes k m.
Proof.
  intros Halloc Hkeep. unfold itemOf, property.
  destruct (find _ changes) as [[k' l]|] eqn:Hfind; [|done]. simpl.
  apply find_some in Hfind as [Hin _]. apply list_elem_of_In in Hin.
  by rewrite (Hkeep l (Halloc k' l Hin)).
Qed.

Lemma itemsAllocated_frame changes m m' :
  itemsAllocated changes m →
  (∀ l, is_Some (storeItemObjects m !! l) →
        storeItemObjects m' !! l = storeItemObjects m !! l) →
  itemsAllocated changes m'.
Proof. intros Halloc Hkeep k l Hin. rewrite (Hkeep l); by eapply Halloc. Qed.

(** What one key of the loop of [write] does, with its promise left
    floating. *)
Lemma floating_writeKey_record escapeKey changes k m :
  itemsAllocated changes m →
  ∃ m', floating (writeKey escapeKey changes k) m = (Normal tt, m') ∧
    this m' = this m ∧
    currentSettings m' = currentSettings m ∧
    itemsAllocated changes m' ∧
    (∀ k', itemOf changes k' m' = itemOf changes k' m) ∧
    cosmos m' = cosmos (writeKey escapeKey changes k m).2 ∧
    (documents (cosmos m') = documents (cosmos m) ∨
     ∃ id v, documents (cosmos m')
             = <[id := mkResource (recordFor escapeKey (currentSettings m) k
                                     (itemOf changes k m)) v]> (documents (cosmos m))).
Proof.
  intros Halloc.
  destruct (writeKey_record escapeKey changes k m) as (Ht & Hs & Hd).
  destruct (writeFrame_writeKey escapeKey changes k m) as (Hkeep & _ & _).
  unfold floating.
  destruct (writeKey escapeKey changes k m) as [[[]|e] m1]; cbn [fst snd] in *;
    eexists; (split; [reflexivity|]); cbn [this settingsObjects storeItemObjects cosmos];
    (split_and!; try done;
     [unfold currentSettings; cbn [this settingsObjects]; by rewrite Ht, Hs
     |by apply (itemsAllocated_frame changes m)
     |intros k'; by apply itemOf_frame]).
Qed.

(** The loop of [write]: where the records it leaves come from. *)
Lemma forEach_writeKey_provenance escapeKey changes (keys : list string) :
  ∀ m r m', itemsAllocated changes m →
    forEach (λ k, floating (writeKey escapeKey changes k)) keys m = (r, m') →
    ∀ id rec, documents (cosmos m') !! id = Some rec →
      documents (cosmos m) !! id = Some rec ∨
      ∃ k, k ∈ keys ∧
           res_document rec = recordFor escapeKey (currentSettings m) k (itemOf changes k m).
Proof.
  induction keys as [|k keys IH]; intros m r m' Halloc Hrun id rec Hrec.
  - injection Hrun as _ <-. by left.
  - cbn [forEach] in Hrun.
    destruct (floating_writeKey_record escapeKey changes k m Halloc)
      as (m1 & Hstep & _ & Hcur & Halloc1 & Hitems & _ & Hdocs).
    rewrite (bind_normal _ _ _ _ _ Hstep) in Hrun.
    destruct (IH m1 r m' Halloc1 Hrun id rec Hrec) as [Hold|(k' & Hk' & Hres)].
    + destruct Hdocs as [Hsame|(id0 & v & Hnew)].
      * left. by rewrite <- Hsame.
      * rewrite Hnew in Hold. apply lookup_insert_Some in Hold as [[_ <-]|[_ Hold]].
        -- right. exists k. split; [apply list_elem_of_here|done].
        -- by left.
    + right. exists k'. split; [by apply list_elem_of_further|].
      by rewrite Hres, Hcur, Hitems.
Qed.

(** The loop of [write] on an instance with its container handle: the
    requests it sends, in the order of the keys. *)
Lemma forEach_writeKey_requests escapeKey changes co (keys : list string) :
  ∀ m r m', container (this m) = Some co →
    itemsAllocated changes m →
    forEach (λ k, floating (writeKey escapeKey changes k)) keys m = (r, m') →
    calls (cosmos m')
    = (rev (map (λ k, requestFor escapeKey co (currentSettings m) k (itemOf changes k m)) keys)
       ++ calls (cosmos m))%list.
Proof.
  induction keys as [|k keys IH]; intros m r m' Hco Halloc Hrun.
  - by injection Hrun as _ <-.
  - cbn [forEach] in Hrun.
    destruct (floating_writeKey_record escapeKey changes k m Halloc)
      as (m1 & Hstep & Ht & Hcur & Halloc1 & Hitems & Hcos & _).
    destruct (writeKey_step escapeKey changes k m co Hco) as (_ & _ & Hcalls & _).
    rewrite (bind_normal _ _ _ _ _ Hstep) in Hrun.
    rewrite (IH m1 r m') by (by rewrite ?Ht).
    rewrite Hcos, Hcalls, Hcur. cbn [map rev]. rewrite <- app_assoc. cbn [app].
    do 2 f_equal. apply map_ext. intros k'. by rewrite Hitems.
Qed.

(** One key whose item selects the unconditional branch, when the service
    answers: the record is stored. *)
Lemma floating_writeKey_upsert escapeKey changes k m co :
  container (this m) = Some co →
  answersAll (cosmos m) →
  unconditional (eTag (itemOf changes k m)) = true →
  ∃ m', floating (writeKey escapeKey changes k) m = (Normal tt, m') ∧
    answersAll (cosmos m') ∧
    documents (cosmos m')
    = <[doc_id (recordFor escapeKey (currentSettings m) k (itemOf changes k m))
        := mkResource (recordFor escapeKey (currentSettings m) k (itemOf changes k m))
             (newETag (versions (cosmos m)))]> (documents (cosmos m)).
Proof.
  intros Hco Hall Htag. unfold floating.
  rewrite (writeKey_unconditional escapeKey changes k m co Hco Htag). cbv zeta.
  rewrite receive_answers by (by apply answersAll_answers).
  rewrite documentChangeOf_recordFor. unfold serveUpsert.
  eexists. split; [reflexivity|]. split; [|reflexivity].
  unfold afterCopy, store, answersAll. cbn [cosmos faults].
  by apply (answersAll_accept
              (ItemsUpsert co (recordFor escapeKey (currentSettings m) k (itemOf changes k m)))).
Qed.

Lemma forEach_writeKey_stores escapeKey changes co (keys : list string) :
  ∀ m r m', container (this m) = Some co →
    answersAll (cosmos m) →
    partitionApart (currentSettings m) →
    itemsAllocated changes m →
    NoDup (escapeKey <$> keys) →
    (∀ k, k ∈ keys → unconditional (eTag (itemOf changes k m)) = true) →
    forEach (λ k, floating (writeKey escapeKey changes k)) keys m = (r, m') →
    ∀ k, k ∈ keys →
      ∃ v, documents (cosmos m') !! escapeKey k
           = Some (mkResource (recordFor escapeKey (currentSettings m) k (itemOf changes k m)) v).
Proof.
  induction keys as [|k0 keys IH]; intros m r m' Hco Hall Hapart Halloc Hnodup Htags Hrun k Hk.
  - by apply elem_of_nil in Hk.
  - cbn [forEach] in Hrun. rewrite fmap_cons in Hnodup. apply NoDup_cons in Hnodup as [Hnotin Hnodup].
    destruct (floating_writeKey_record escapeKey changes k0 m Halloc)
      as (m1 & Hstep & Ht & Hcur & Halloc1 & Hitems & _ & _).
    assert (Hco1 : container (this m1) = Some co) by (by rewrite Ht).
    destruct (floating_writeKey_upsert escapeKey changes k0 m co Hco Hall)
      as (m1' & Hstep' & Hall1 & Hdocs); [apply Htags, list_elem_of_here|].
    rewrite Hstep in Hstep'. injection Hstep' as <-.
    rewrite (bind_normal _ _ _ _ _ Hstep) in Hrun.
    assert (Hapart1 : partitionApart (currentSettings m1)) by (by rewrite Hcur).
    apply elem_of_cons in Hk as [->|Hk].
    + exists (newETag (versions (cosmos m))).
      rewrite (forEach_writeKey_touches escapeKey changes keys m1 r m' Hapart1 Hrun _ Hnotin).
      rewrite Hdocs.
      destruct (spreadInto_apart
                  (mkDocument (escapeKey k0) k0 (PObject (setETag None (itemOf changes k0 m))) ∅)
                  (currentSettings m) Hapart) as (Hid & _ & _).
      unfold recordFor at 1. rewrite Hid. cbn [doc_id]. apply lookup_insert_eq.
    + destruct (IH m1 r m' Hco1 Hall1 Hapart1 Halloc1 Hnodup) with (k := k) as [v Hv];
        try done.
      { intros k' Hk'. rewrite Hitems. apply Htags. by apply list_elem_of_further. }
      exists v. by rewrite Hv, Hcur, Hitems.
Qed.

(** C6.  [write] builds the record of each key from a copy of the caller's
    item, without the [eTag] of the item.  Whatever the input, the instance
    and the answers of the service: every item object that existed before
    the call is unchanged after it (the caller's items keep their [eTag]),
    and every request sent and every record stored by the call carries a
    payload without [eTag].  When the values of [changes] are objects of the
    heap: every record the call leaves in the container that was not there
    before is the record built for one of the keys, the envelope [id],
    [realId], [document] around the fields of the caller's item; when the
    provisioning step leaves the container handle, the call sends exactly one
    request for each key, in the order of the keys, that carries that record;
    and when the service answers, the partition field is apart from the
    envelope and the items select the unconditional branch, the record of
    each key is in the container after the call. *)
Theorem write_strips_eTag_from_copy
    (escapeKey : string → string) (changes : option (list (string * loc))) (m : Machine) :
  let m' := (write escapeKey changes m).2 in
  let entries := default [] changes in
  let keys := objectKeys entries in
  let record := λ k, recordFor escapeKey (currentSettings m) k (itemOf entries k m) in
  (∀ l, is_Some (storeItemObjects m !! l) →
        storeItemObjects m' !! l = storeItemObjects m !! l) ∧
  (∀ c, c ∈ calls (cosmos m') → c ∈ calls (cosmos m) ∨ sendsNoETag c) ∧
  (∀ id r, documents (cosmos m') !! id = Some r →
           documents (cosmos m) !! id = Some r ∨ payloadWithoutETag (res_document r)) ∧
  (itemsAllocated entries m →
   (∀ id r, documents (cosmos m') !! id = Some r →
            documents (cosmos m) !! id = Some r ∨
            ∃ k, k ∈ keys ∧ res_document r = record k) ∧
   (∀ m1 co, keys ≠ [] →
      ensureContainerExists m = (Normal tt, m1) →
      container (this m1) = Some co →
      calls (cosmos m')
      = (rev (map (λ k, requestFor escapeKey co (currentSettings m) k (itemOf entries k m))
                  keys)
         ++ calls (cosmos m1))%list) ∧
   (answersAll (cosmos m) →
    partitionApart (currentSettings m) →
    NoDup (escapeKey <$> keys) →
    (∀ k, k ∈ keys → unconditional (eTag (itemOf entries k m)) = true) →
    ∀ k, k ∈ keys →
      ∃ r, documents (cosmos m') !! escapeKey k = Some r ∧
           res_document r = record k ∧
           doc_id (record k) = escapeKey k ∧
           doc_realId (record k) = k ∧
           doc_document (record k)
           = PObject (mkStoreItem None (fields (itemOf entries k m))))).
Proof.
  cbv zeta.
  destruct (write_works_on_copies escapeKey changes m) as (Hitems & Hcalls & Hdocs).
  split; [exact Hitems|]. split; [exact Hcalls|]. split; [exact Hdocs|].
  clear Hitems Hcalls Hdocs. intros Halloc.
  destruct changes as [entries|]; cbn [default from_option id] in *.
  2: { split_and!.
       - intros id r Hr. by left.
       - intros m1 co Hne. done.
       - intros _ _ _ _ k Hk. by apply elem_of_nil in Hk. }
  unfold write. destruct (objectKeys entries) as [|k0 keys] eqn:Hkeys.
  { split_and!.
    - intros id r Hr. by left.
    - intros m1 co Hne. done.
    - intros _ _ _ _ k Hk. by apply elem_of_nil in Hk. }
  pose proof (ensureContainerExists_keeps_documents m) as (Hs & Hso & Hd).
  destruct (writeFrame_ensureContainerExists m) as (Hkeep & _ & _).
  destruct (ensureContainerExists m) as [[[]|e] m1] eqn:Hens; cbn [fst snd] in *.
  2: { rewrite (bind_throw _ _ _ _ _ Hens). cbn [fst snd]. split_and!.
       - intros id r Hr. left. by rewrite <- Hd.
       - intros m2 co _ Hcontra. done.
       - intros Hall. destruct (ensureContainerExists_answersAll m Hall) as (m2 & Hok & _).
         congruence. }
  rewrite (bind_normal _ _ _ _ _ Hens).
  assert (Hcur : currentSettings m1 = currentSettings m).
  { unfold currentSettings. by rewrite Hs, Hso. }
  assert (Halloc1 : itemsAllocated entries m1) by (by apply (itemsAllocated_frame entries m)).
  assert (Hsame : ∀ k, itemOf entries k m1 = itemOf entries k m).
  { intros k. by apply itemOf_frame. }
  destruct (forEach (λ k, floating (writeKey escapeKey entries k)) (k0 :: keys) m1)
    as [r m'] eqn:Hrun. cbn [fst snd].
  split_and!.
  - intros id rec Hrec.
    destruct (forEach_writeKey_provenance escapeKey entries (k0 :: keys) m1 r m'
                Halloc1 Hrun id rec Hrec) as [Hold|(k & Hk & Hres)].
    + left. by rewrite <- Hd.
    + right. exists k. split; [done|]. by rewrite Hres, Hcur, Hsame.
  - intros m2 co _ Heq Hco. injection Heq as <-.
    rewrite (forEach_writeKey_requests escapeKey entries co (k0 :: keys) m1 r m' Hco
               Halloc1 Hrun).
    rewrite Hcur. f_equal. f_equal. apply map_ext. intros k. by rewrite Hsame.
  - intros Hall Hapart Hnodup Htags k Hk.
    destruct (ensureContainerExists_answersAll m Hall)
      as (m2 & Hok & _ & [co Hco] & _ & Hall1).
    rewrite Hens in Hok. injection Hok as <-.
    destruct (forEach_writeKey_stores escapeKey entries co (k0 :: keys) m1 r m')
      with (k := k) as [v Hv]; try done.
    { by rewrite Hcur. }
    { intros k' Hk'. rewrite Hsame. by apply Htags. }
    rewrite Hcur, Hsame in Hv.
    eexists. split; [exact Hv|]. split; [done|].
    unfold recordFor. by apply spreadInto_apart.
Qed.

(** ** Sample runs of the properties above *)

Lemma write_strips_eTag_from_copy_witness :
  let m := sampleMachine newInstance {[ 1%positive := countItem (Some "*") ]} emptyService in
  let m' := (write plainKey (Some [("k", 1%positive)]) m).2 in
  itemsAllocated [("k", 1%positive)] m ∧
  answersAll (cosmos m) ∧
  partitionApart (currentSettings m) ∧
  storeItemObjects m' !! 1%positive = Some (countItem (Some "*")) ∧
  calls (cosmos m')
  = ItemsUpsert sampleContainer (mkDocument "k" "k" (PObject (countItem None)) ∅)
      :: calls (cosmos (ensureContainerExists m).2) ∧
  ∃ r, documents (cosmos m') !! "k" = Some r ∧
       res_document r = mkDocument "k" "k" (PObject (countItem None)) ∅.
Proof.
  cbv zeta.
  set (m := sampleMachine newInstance {[ 1%positive := countItem (Some "*") ]} emptyService).
  assert (H1 : itemsAllocated [("k", 1%positive)] m).
  { intros k l Hin. apply list_elem_of_singleton in Hin. injection Hin as -> ->.
    by exists (countItem (Some "*")). }
  assert (H2 : answersAll (cosmos m)) by apply Forall_nil_2.
  assert (H3 : partitionApart (currentSettings m)) by (by split_and!).
  destruct (write_strips_eTag_from_copy plainKey (Some [("k", 1%positive)]) m)
    as (Hitems & _ & _ & Hrecords).
  destruct (Hrecords H1) as (_ & Hsent & Hstored).
  split; [exact H1|]. split; [exact H2|]. split; [exact H3|]. split; [|split].
  - rewrite Hitems; [reflexivity|by exists (countItem (Some "*"))].
  - apply (Hsent (ensureContainerExists m).2 sampleContainer); [discriminate|reflexivity..].
  - destruct (Hstored H2 H3) with (k := "k") as (r & Hr & Hdoc & _).
    + apply NoDup_singleton.
    + intros k Hk. apply list_elem_of_singleton in Hk as ->. reflexivity.
    + apply list_elem_of_here.
    + exists r. split; [exact Hr|exact Hdoc].
Defined.

Lemma constructor_requires_settings_witness :
  callerHeap (sampleSettings None None) !! 1%positive = Some (sampleSettings None None) ∧
  (∃ instance,
     constructor ∅ (Some 1%positive) None (callerHeap (sampleSettings None None))
     = (Normal instance,
        <[settings instance := normalized (sampleSettings None None)]>
          (callerHeap (sampleSettings None None))) ∧
     callerHeap (sampleSettings None None) !! settings instance = None ∧
     database instance = None ∧ container instance = None) ∧
  callerHeap blankEndpointSettings !! 1%positive = Some blankEndpointSettings ∧
  constructor ∅ (Some 1%positive) None (callerHeap blankEndpointSettings)
  = (Throw (JsError "The settings service Endpoint is required." None NoCause),
     callerHeap blankEndpointSettings).
Proof.
  split; [reflexivity|]. split; [|split; [reflexivity|]].
  - destruct (constructor_requires_settings ∅ None (callerHeap (sampleSettings None None))
                1%positive (sampleSettings None None) eq_refl) as (_ & _ & _ & _ & Hok).
    apply Hok; (eexists; split; [reflexivity|reflexivity]).
  - destruct (constructor_requires_settings ∅ None (callerHeap blankEndpointSettings)
                1%positive blankEndpointSettings eq_refl) as (Hblank & _).
    apply Hblank. intros (s & Hs & Hcontent). injection Hs as <-. discriminate.
Defined.

Lemma constructor_twice_keeps_settings_witness :
  callerHeap partitionedSettings !! 1%positive = Some partitionedSettings ∧
  validated partitionedSettings = true ∧
  ∃ first heap1 second heap2,
    constructor ∅ (Some 1%positive) None (callerHeap partitionedSettings)
    = (Normal first, heap1) ∧
    constructor ∅ (Some (settings first)) None heap1 = (Normal second, heap2) ∧
    settings second ≠ settings first ∧
    heap2 !! settings second = heap1 !! settings first.
Proof.
  split; [reflexivity|]. split; [reflexivity|].
  exact (constructor_twice_keeps_settings ∅ None (callerHeap partitionedSettings)
           1%positive partitionedSettings eq_refl eq_refl).
Defined.

Lemma partition_field_of_new_instance_witness :
  callerHeap partitionedSettings !! 1%positive = Some partitionedSettings ∧
  validated partitionedSettings = true ∧
  ∃ instance heap',
    constructor ∅ (Some 1%positive) None (callerHeap partitionedSettings)
    = (Normal instance, heap') ∧
    ∀ m, this m = instance → settingsObjects m = heap' →
      formatPartitionKeyValue m = (Normal {[ "pk" := "v1" ]}, m).
Proof.
  split; [reflexivity|]. split; [reflexivity|].
  exact (partition_field_of_new_instance ∅ None (callerHeap partitionedSettings)
           1%positive partitionedSettings eq_refl eq_refl).
Defined.

Lemma previous_constructor_refuses_exactly_reserved_witness :
  callerHeap (sampleSettings (Some "realId") None) !! 1%positive
  = Some (sampleSettings (Some "realId") None) ∧
  validated (sampleSettings (Some "realId") None) = true ∧
  ∃ e heap',
    Previous.constructor ∅ (Some 1%positive) None
      (callerHeap (sampleSettings (Some "realId") None)) = (Throw e, heap').
Proof.
  split; [reflexivity|]. split; [reflexivity|].
  destruct (previous_constructor_refuses_exactly_reserved ∅ None
              (callerHeap (sampleSettings (Some "realId") None)) 1%positive
              (sampleSettings (Some "realId") None) eq_refl eq_refl) as [Hrefused _].
  apply Hrefused. apply list_elem_of_further, list_elem_of_here.
Defined.

Lemma provisioning_happens_once_witness :
  answersAll (cosmos (sampleMachine newInstance ∅ emptyService)) ∧
  let m1 := (ensureContainerExists (sampleMachine newInstance ∅ emptyService)).2 in
  length (calls (cosmos m1)) = 2%nat ∧
  ensureContainerExists m1 = (Normal tt, m1).
Proof.
  assert (H : answersAll (cosmos (sampleMachine newInstance ∅ emptyService)))
    by apply Forall_nil_2.
  split; [exact H|].
  destruct (provisioning_happens_once (sampleMachine newInstance ∅ emptyService) H)
    as (_ & _ & Hcalls & _ & Hagain).
  cbv zeta. split; [exact Hcalls|exact Hagain].
Defined.

Lemma database_failure_ends_the_operation_witness :
  let m := sampleMachine newInstance ∅ (failingService serviceUnavailable) in
  let e := errWithNewMessage serviceUnavailable "Error initializing database" in
  ["k"] ≠ [] ∧ [("k", 1%positive)] ≠ [] ∧
  database (this m) = None ∧
  faults (cosmos m) = [Some serviceUnavailable] ∧
  codeIs serviceUnavailable 409 = false ∧
  (read plainKey (Some ["k"]) m).1 = Throw e ∧
  (write plainKey (Some [("k", 1%positive)]) m).1 = Throw e ∧
  (delete plainKey (Some ["k"]) m).1 = Throw e.
Proof.
  cbv zeta.
  assert (H1 : ["k"] ≠ []) by discriminate.
  assert (H2 : [("k", 1%positive)] ≠ []) by discriminate.
  split; [exact H1|]. split; [exact H2|]. split; [reflexivity|]. split; [reflexivity|].
  split; [reflexivity|].
  destruct (database_failure_ends_the_operation plainKey
              (sampleMachine newInstance ∅ (failingService serviceUnavailable))
              serviceUnavailable [] ["k"] [("k", 1%positive)] H1 H2 eq_refl eq_refl eq_refl)
    as (Hread & Hwrite & Hdelete).
  rewrite Hread, Hwrite, Hdelete. by split_and!.
Defined.

Lemma container_failure_ends_the_operation_witness :
  let m := sampleMachine halfProvisionedInstance ∅ (failingService serviceUnavailable) in
  let e := errWithNewMessage serviceUnavailable "Error initializing container" in
  ["k"] ≠ [] ∧ [("k", 1%positive)] ≠ [] ∧
  database (this m) = Some sampleDatabase ∧
  container (this m) = None ∧
  faults (cosmos m) = [Some serviceUnavailable] ∧
  codeIs serviceUnavailable 409 = false ∧
  (read plainKey (Some ["k"]) m).1 = Throw e ∧
  (write plainKey (Some [("k", 1%positive)]) m).1 = Throw e ∧
  (delete plainKey (Some ["k"]) m).1 = Throw e.
Proof.
  cbv zeta.
  assert (H1 : ["k"] ≠ []) by discriminate.
  assert (H2 : [("k", 1%positive)] ≠ []) by discriminate.
  split; [exact H1|]. split; [exact H2|]. split; [reflexivity|]. split; [reflexivity|].
  split; [reflexivity|]. split; [reflexivity|].
  destruct (container_failure_ends_the_operation plainKey
              (sampleMachine halfProvisionedInstance ∅ (failingService serviceUnavailable))
              sampleDatabase serviceUnavailable [] ["k"] [("k", 1%positive)]
              H1 H2 eq_refl eq_refl eq_refl eq_refl)
    as (Hread & Hwrite & Hdelete).
  rewrite Hread, Hwrite, Hdelete. by split_and!.
Defined.

Lemma read_wraps_query_failure_witness :
  let m := sampleMachine provisionedInstance ∅ (failingService serviceUnavailable) in
  ["k"] ≠ [] ∧
  database (this m) = Some sampleDatabase ∧
  container (this m) = Some sampleContainer ∧
  faults (cosmos m) = [Some serviceUnavailable] ∧
  (read plainKey (Some ["k"]) m).1
  = Throw (errWithNewMessage serviceUnavailable "Error reading from container").
Proof.
  cbv zeta.
  assert (H1 : ["k"] ≠ []) by discriminate.
  split; [exact H1|]. split; [reflexivity|]. split; [reflexivity|]. split; [reflexivity|].
  by rewrite (read_wraps_query_failure plainKey ["k"]
                (sampleMachine provisionedInstance ∅ (failingService serviceUnavailable))
                sampleDatabase sampleContainer serviceUnavailable [] H1 eq_refl eq_refl eq_refl).
Defined.

Lemma delete_sends_one_request_per_key_witness :
  let m := sampleMachine provisionedInstance ∅ emptyService in
  database (this m) = Some sampleDatabase ∧
  container (this m) = Some sampleContainer ∧
  (delete plainKey (Some ["a"; "b"]) m).1 = Normal tt ∧
  calls (cosmos (delete plainKey (Some ["a"; "b"]) m).2)
  = [ItemDelete sampleContainer "b" None (Some EmptyString);
     ItemDelete sampleContainer "a" None (Some EmptyString)].
Proof.
  cbv zeta. split; [reflexivity|]. split; [reflexivity|].
  destruct (delete_sends_one_request_per_key plainKey ["a"; "b"]
              (sampleMachine provisionedInstance ∅ emptyService)
              sampleDatabase sampleContainer eq_refl eq_refl) as (Hout & Hcalls & _).
  split; [exact Hout|exact Hcalls].
Defined.

Lemma write_sends_one_request_per_key_witness :
  let m := sampleMachine provisionedInstance {[ 1%positive := countItem None ]} emptyService in
  database (this m) = Some sampleDatabase ∧
  container (this m) = Some sampleContainer ∧
  (write plainKey (Some [("a", 1%positive); ("b", 1%positive)]) m).1 = Normal tt ∧
  length (calls (cosmos (write plainKey (Some [("a", 1%positive); ("b", 1%positive)]) m).2))
  = 2%nat.
Proof.
  cbv zeta. split; [reflexivity|]. split; [reflexivity|].
  destruct (write_sends_one_request_per_key plainKey [("a", 1%positive); ("b", 1%positive)]
              (sampleMachine provisionedInstance {[ 1%positive := countItem None ]} emptyService)
              sampleDatabase sampleContainer eq_refl eq_refl) as (Hout & Hcalls & _).
  split; [exact Hout|exact Hcalls].
Defined.

Lemma write_touches_only_its_keys_witness :
  partitionApart (currentSettings readMachine) ∧
  ("keyCreate" ∉ plainKey <$> objectKeys [("other", 1%positive)]) ∧
  documents (cosmos (write plainKey (Some [("other", 1%positive)]) readMachine).2)
    !! "keyCreate"
  = Some (countResource plainKey "keyCreate" "etag-0").
Proof.
  assert (H1 : partitionApart (currentSettings readMachine)) by (by split_and!).
  assert (H2 : "keyCreate" ∉ plainKey <$> objectKeys [("other", 1%positive)]).
  { intros H. apply list_elem_of_singleton in H. discriminate. }
  split; [exact H1|]. split; [exact H2|].
  by rewrite (write_touches_only_its_keys plainKey [("other", 1%positive)] readMachine H1
                "keyCreate" H2).
Defined.




Lemma write_keeps_wellFormed_witness :
  partitionApart (currentSettings readMachine) ∧
  wellFormed plainKey (documents (cosmos readMachine)) ∧
  wellFormed plainKey
    (documents (cosmos (write plainKey (Some [("other", 1%positive)]) readMachine).2)).
Proof.
  assert (H1 : partitionApart (currentSettings readMachine)) by (by split_and!).
  assert (H2 : wellFormed plainKey (documents (cosmos readMachine))).
  { apply map_Forall_singleton. repeat split. by exists (countItem None). }
  split; [exact H1|]. split; [exact H2|].
  exact (write_keeps_wellFormed plainKey (Some [("other", 1%positive)]) readMachine H1 H2).
Defined.
